(** * Scorebook: the daily score ledger and the PDF report of [app.py]

    A shallow embedding of the two request handlers of [app.py] that carry
    the application's contracts:

    - [save_scores] (POST /scores/save), which turns one form submission
      into inserts, updates and deletes on the [scores] table, and
    - [export_pdf] (GET /export/pdf), which lays the day's rows out on
      A4 pages through a reportlab canvas.

    Python values are modelled as follows.  A [str] is the list of its
    code points ([pystr]); an [int] is a [Z]; a [float] is a primitive
    binary64 [float]; [None] is [None].  The conversions the handlers call
    ([float], [int], [str] of a float, [datetime.strptime], [strftime],
    [date.today]) are an interface, [Builtins]: the theorems hold for every
    implementation of it, and [cpython] is an executable implementation
    used to run the handlers on concrete requests.

    The [scores] table is the list of its rows, with the values an SQLite
    table keeps ([SQLite]): an INTEGER is a signed 64-bit integer, and
    sqlite3 raises [OverflowError] when it is given another one to bind; a
    REAL is a binary64 that is not a NaN, and negative zero is kept as
    zero.  The session sends its pending statements before every query and
    on commit, and that is where a value is bound.  The strings of a
    request are decoded from UTF-8, so that every string a handler gets can
    be bound.  Foreign keys are not in the model: SQLite does not enforce
    them unless asked to.  A handler runs in a session of its own (one
    request at a time). *)

From Stdlib Require Import ZArith NArith List String Ascii DecimalString Floats Lia.
From stdpp Require Import base option list gmap sorting.

#[local] Open Scope Z_scope.
#[local] Set Default Proof Using "Type".

(** ** Python strings *)

Abbreviation pystr := (list N).

(** An ASCII literal as a Python string. *)
Definition lit (s : string) : pystr := N_of_ascii <$> list_ascii_of_string s.

(** A [datetime.date]. *)
Record date := Date { year : Z; month : Z; day : Z }.

#[global] Instance date_eq_dec : EqDecision date := ltac:(solve_decision).

Module Py.

(** [str.isspace] on one code point ([Py_UNICODE_ISSPACE]). *)
Definition isspace (c : N) : bool :=
  ((9 <=? c) && (c <=? 13) || (28 <=? c) && (c <=? 32)
   || (c =? 0x85) || (c =? 0xA0) || (c =? 0x1680)
   || (0x2000 <=? c) && (c <=? 0x200A)
   || (c =? 0x2028) || (c =? 0x2029) || (c =? 0x202F) || (c =? 0x205F)
   || (c =? 0x3000))%N.

Fixpoint lstrip (s : pystr) : pystr :=
  match s with
  | c :: r => if isspace c then lstrip r else s
  | [] => []
  end.

Definition rstrip (s : pystr) : pystr := rev (lstrip (rev s)).

(** [s.strip()] *)
Definition strip (s : pystr) : pystr := rstrip (lstrip s).

(** [str(n)] for an [int]. *)
Definition str_of_int (n : Z) : pystr :=
  lit (NilZero.string_of_int (Z.to_int n)).

End Py.

(** ** The builtins as CPython 3.11 implements them

    These definitions follow CPython's C code ([PyLong_FromString],
    [PyFloat_FromString], [float_repr] and [_strptime]); they are used to
    run the handlers, never in the statement of a general theorem. *)

Module CPython.

(** The code points of the digit zero of every Unicode decimal digit
    range (general category Nd, Unicode 14.0). *)
Definition decimal_zeros : list N :=
  [0x30; 0x660; 0x6f0; 0x7c0; 0x966; 0x9e6; 0xa66; 0xae6; 0xb66; 0xbe6;
   0xc66; 0xce6; 0xd66; 0xde6; 0xe50; 0xed0; 0xf20; 0x1040; 0x1090; 0x17e0;
   0x1810; 0x1946; 0x19d0; 0x1a80; 0x1a90; 0x1b50; 0x1bb0; 0x1c40; 0x1c50;
   0xa620; 0xa8d0; 0xa900; 0xa9d0; 0xa9f0; 0xaa50; 0xabf0; 0xff10; 0x104a0;
   0x10d30; 0x11066; 0x110f0; 0x11136; 0x111d0; 0x112f0; 0x11450; 0x114d0;
   0x11650; 0x116c0; 0x11730; 0x118e0; 0x11950; 0x11c50; 0x11d50; 0x11da0;
   0x16a60; 0x16ac0; 0x16b50; 0x1d7ce; 0x1d7d8; 0x1d7e2; 0x1d7ec; 0x1d7f6;
   0x1e140; 0x1e2f0; 0x1e950; 0x1fbf0]%N.

(** [Py_UNICODE_TODECIMAL] *)
Definition todecimal (c : N) : option N :=
  (fun z => c - z)%N <$>
    find (fun z => (z <=? c) && (c <? z + 10))%N decimal_zeros.

(** [_PyUnicode_TransformDecimalAndSpaceToASCII]: an ASCII string is kept
    as it is; otherwise spaces become [' '], decimal digits their ASCII
    digit, and the string is cut at the first other character, which
    becomes ['?']. *)
Fixpoint transform (s : pystr) : pystr :=
  match s with
  | [] => []
  | c :: r =>
      if (c <? 127)%N then c :: transform r
      else if Py.isspace c then 32%N :: transform r
      else match todecimal c with
           | Some d => (48 + d)%N :: transform r
           | None => [63%N]
           end
  end.

Definition to_ascii (s : pystr) : pystr :=
  if forallb (fun c => c <? 128)%N s then s else transform s.

(** [Py_ISSPACE] and [Py_ISDIGIT] of the C locale. *)
Definition c_isspace (c : N) : bool := ((9 <=? c) && (c <=? 13) || (c =? 32))%N.
Definition c_isdigit (c : N) : bool := ((48 <=? c) && (c <=? 57))%N.

Fixpoint skip_spaces (s : pystr) : pystr :=
  match s with
  | c :: r => if c_isspace c then skip_spaces r else s
  | [] => []
  end.

(** The longest prefix of characters satisfying [p], and the rest. *)
Fixpoint span (p : N → bool) (s : pystr) : pystr * pystr :=
  match s with
  | c :: r => if p c then let '(a, b) := span p r in (c :: a, b) else ([], s)
  | [] => ([], [])
  end.

(** Underscores are allowed between two digits only. *)
Fixpoint underscores_ok (prev : N) (s : pystr) : bool :=
  match s with
  | [] => negb (prev =? 95)%N
  | c :: r =>
      (if (c =? 95)%N then c_isdigit prev
       else negb (prev =? 95)%N || c_isdigit c)
      && underscores_ok c r
  end.

Definition digits_value (ds : pystr) : Z :=
  fold_left (fun acc c => 10 * acc + (Z.of_N c - 48)) ds 0.

Definition sign_of (s : pystr) : bool * pystr :=
  match s with
  | 43%N :: r => (false, r)
  | 45%N :: r => (true, r)
  | _ => (false, s)
  end.

(** The default of [sys.int_max_str_digits]. *)
Definition int_max_str_digits : nat := 4300.

(** [int(s)]: [None] stands for the [ValueError] it raises. *)
Definition int_of_str (s : pystr) : option Z :=
  let '(neg, s1) := sign_of (skip_spaces (to_ascii s)) in
  let '(run, rest) := span (fun c => c_isdigit c || (c =? 95)%N) s1 in
  let ds := filter (fun c => c_isdigit c = true) run in
  match run, skip_spaces rest with
  | _ :: _, [] =>
      if underscores_ok 0 run && (length ds <=? int_max_str_digits)%nat
      then Some (if neg then - digits_value ds else digits_value ds)
      else None
  | _, _ => None
  end.

(** *** [float(s)] *)

(** The binary64 number nearest to [(-1)^neg * m * 10^e] (ties to even),
    computed exactly on integers; [m] is positive. *)
Definition decimal_to_SF (neg : bool) (m e : Z) : spec_float :=
  let '(q, e2, l) :=
    SFdiv_core_binary prec emax (m * 10 ^ Z.max e 0) 0 (10 ^ Z.max (- e) 0) 0 in
  binary_round_aux prec emax neg q e2 l.

(** [nd] is the number of digits [m] was read from: a value of at least
    [10^400] overflows, one below [10^-400] rounds to zero. *)
Definition decimal_to_float (neg : bool) (nd : nat) (m e : Z) : float :=
  if m =? 0 then (if neg then neg_zero else zero)
  else if 400 <? e then (if neg then neg_infinity else infinity)
  else if e + Z.of_nat nd <? -400 then (if neg then neg_zero else zero)
  else SF2Prim (decimal_to_SF neg m e).

Definition tolower (c : N) : N :=
  if ((65 <=? c) && (c <=? 90))%N then (c + 32)%N else c.

(** [_Py_parse_inf_or_nan], after the sign. *)
Definition parse_inf_or_nan (neg : bool) (s : pystr) : option float :=
  let t := tolower <$> s in
  if bool_decide (t = lit "inf") || bool_decide (t = lit "infinity")
  then Some (if neg then neg_infinity else infinity)
  else if bool_decide (t = lit "nan") then Some nan
  else None.

(** The exponent part of a decimal literal: [e], a sign and digits; it is
    not consumed when it has no digit. *)
Definition parse_exponent (s : pystr) : Z * pystr :=
  match s with
  | c :: r =>
      if ((c =? 101) || (c =? 69))%N then
        let '(eneg, r1) := sign_of r in
        let '(ed, r2) := span c_isdigit r1 in
        match ed with
        | [] => (0, s)
        | _ => (if eneg then - digits_value ed else digits_value ed, r2)
        end
      else (0, s)
  | [] => (0, [])
  end.

(** [_Py_dg_strtod] followed by [_Py_parse_inf_or_nan], on the whole
    string. *)
Definition parse_float_body (s : pystr) : option float :=
  let '(neg, t) := sign_of s in
  let '(ip, t1) := span c_isdigit t in
  let '(fp, t2) :=
    match t1 with
    | 46%N :: r => span c_isdigit r
    | _ => ([], t1)
    end in
  match ip ++ fp with
  | [] => parse_inf_or_nan neg t
  | ds =>
      match parse_exponent t2 with
      | (e, []) =>
          Some (decimal_to_float neg (length ds) (digits_value ds)
                  (e - Z.of_nat (length fp)))
      | _ => None
      end
  end.

(** [float(s)]: [None] stands for the [ValueError] it raises. *)
Definition float_of_str (s : pystr) : option float :=
  let body := rev (skip_spaces (rev (skip_spaces (to_ascii s)))) in
  if underscores_ok 0 body
  then parse_float_body (filter (fun c => c ≠ 95%N) body)
  else None.

(** *** [str(x)] for a [float]

    [float_repr]: the shortest decimal string that [float] reads back as
    [x], the nearest to [x] among those, in fixed notation when the decimal
    point position is in (-4, 16] and in exponent notation otherwise. *)

Definition SF_is (m : positive) (e : Z) (x : spec_float) : bool :=
  match x with
  | S754_finite false m' e' => bool_decide (m' = m ∧ e' = e)
  | _ => false
  end.

(** [x < 10^k], for [x = num / den]. *)
Definition lt_pow10 (num den k : Z) : bool :=
  num * 10 ^ Z.max (- k) 0 <? den * 10 ^ Z.max k 0.

Fixpoint find_decpt (fuel : nat) (num den k : Z) : Z :=
  match fuel with
  | O => k
  | S fuel' => if lt_pow10 num den k then k else find_decpt fuel' num den (k + 1)
  end.

(** The least [k] with [m * 2^e < 10^k]. *)
Definition decpt_of (m : positive) (e : Z) : Z :=
  let l := Z.pos (digits2_pos m) + e - 1 in
  find_decpt 8 (Z.pos m * 2 ^ Z.max e 0) (2 ^ Z.max (- e) 0) (l * 30103 / 100000 - 1).

(** The two [n]-digit candidates around [m * 2^e], nearest first. *)
Definition candidates (m : positive) (e k : Z) (n : Z) : list Z :=
  let a := Z.pos m * 2 ^ Z.max e 0 * 10 ^ Z.max (n - k) 0 in
  let b := 2 ^ Z.max (- e) 0 * 10 ^ Z.max (k - n) 0 in
  let lo := a / b in
  let r := a mod b in
  match 2 * r ?= b with
  | Lt => [lo; lo + 1]
  | Gt => [lo + 1; lo]
  | Eq => if Z.even lo then [lo; lo + 1] else [lo + 1; lo]
  end.

Fixpoint shortest_from (fuel : nat) (m : positive) (e k : Z) (n : Z) : Z * Z :=
  match fuel with
  | O => (Z.pos m, e)
  | S fuel' =>
      match find (fun c => SF_is m e (decimal_to_SF false c (k - n)))
                 (candidates m e k n) with
      | Some c => (c, k - n)
      | None => shortest_from fuel' m e k (n + 1)
      end
  end.

Definition digits_of (c : Z) : pystr := Py.str_of_int c.

Definition strip_zeros (ds : pystr) : pystr :=
  rev (snd (span (fun c => c =? 48)%N (rev ds))).

(** The digits and the position of the decimal point, as [_Py_dg_dtoa]
    returns them in mode 0. *)
Definition shortest_digits (m : positive) (e : Z) : pystr * Z :=
  let '(c, e10) := shortest_from 17 m e (decpt_of m e) 1 in
  (strip_zeros (digits_of c), Z.of_nat (length (digits_of c)) + e10).

Definition zeros (n : Z) : pystr := replicate (Z.to_nat n) 48%N.

Definition format_repr (ds : pystr) (decpt : Z) : pystr :=
  let nd := Z.of_nat (length ds) in
  if (-4 <? decpt) && (decpt <=? 16) then
    if decpt <=? 0 then lit "0." ++ zeros (- decpt) ++ ds
    else if nd <=? decpt then ds ++ zeros (decpt - nd) ++ lit ".0"
    else take (Z.to_nat decpt) ds ++ lit "." ++ drop (Z.to_nat decpt) ds
  else
    let ex := decpt - 1 in
    let es := Py.str_of_int (Z.abs ex) in
    take 1 ds ++ (match drop 1 ds with [] => [] | fr => lit "." ++ fr end)
      ++ lit (if ex <? 0 then "e-" else "e+")
      ++ (if Z.abs ex <? 10 then lit "0" else []) ++ es.

Definition str_of_float (x : float) : pystr :=
  match Prim2SF x with
  | S754_nan => lit "nan"
  | S754_infinity s => lit (if s then "-inf" else "inf")
  | S754_zero s => lit (if s then "-0.0" else "0.0")
  | S754_finite s m e =>
      let '(ds, decpt) := shortest_digits m e in
      (if s then lit "-" else []) ++ format_repr ds decpt
  end.

(** *** [datetime.strptime(s, "%Y-%m-%d").date()] and [strftime]

    [_strptime] matches the regular expression
    [(\d\d\d\d)-(1[0-2]|0[1-9]|[1-9])-(3[0-1]|[1-2]\d|0[1-9]|[1-9]| [1-9])]
    at the start of the string, refuses unconverted data after the match,
    and builds the date, which checks the year and the day of the month.
    [\d] matches every Unicode decimal digit. *)

Definition in_range (lo hi c : N) : bool := ((lo <=? c) && (c <=? hi))%N.
Definition dval (c : N) : Z := Z.of_N c - 48.

Definition match_year (s : pystr) : option (Z * pystr) :=
  match s with
  | a :: b :: c :: d :: r =>
      a ← todecimal a; b ← todecimal b; c ← todecimal c; d ← todecimal d;
      Some (Z.of_N (1000 * a + 100 * b + 10 * c + d), r)
  | _ => None
  end.

(** The alternatives of a group that match at the start of [s], in the
    order the regular expression tries them. *)
Definition month_alternatives (s : pystr) : list (Z * pystr) :=
  match s with
  | a :: r =>
      match r with
      | b :: r' =>
          (if (a =? 49)%N && in_range 48 50 b then [(10 + dval b, r')] else [])
          ++ (if (a =? 48)%N && in_range 49 57 b then [(dval b, r')] else [])
      | [] => []
      end
      ++ (if in_range 49 57 a then [(dval a, r)] else [])
  | [] => []
  end.

Definition day_alternatives (s : pystr) : list (Z * pystr) :=
  match s with
  | a :: r =>
      match r with
      | b :: r' =>
          (if (a =? 51)%N && in_range 48 49 b then [(30 + dval b, r')] else [])
          ++ (if in_range 49 50 a
              then match todecimal b with
                   | Some d => [(10 * dval a + Z.of_N d, r')]
                   | None => []
                   end
              else [])
          ++ (if (a =? 48)%N && in_range 49 57 b then [(dval b, r')] else [])
      | [] => []
      end
      ++ (if in_range 49 57 a then [(dval a, r)] else [])
      ++ match r with
         | b :: r' => if (a =? 32)%N && in_range 49 57 b then [(dval b, r')] else []
         | [] => []
         end
  | [] => []
  end.

Definition is_leap (y : Z) : bool :=
  (y mod 4 =? 0) && (negb (y mod 100 =? 0) || (y mod 400 =? 0)).

Definition days_in_month (y m : Z) : Z :=
  if m =? 2 then (if is_leap y then 29 else 28)
  else if (m =? 4) || (m =? 6) || (m =? 9) || (m =? 11) then 30 else 31.

Definition dash (alt : Z * pystr) : bool :=
  match snd alt with 45%N :: _ => true | _ => false end.

(** [None] stands for the [ValueError] [strptime] or [date] raises. *)
Definition strptime (s : pystr) : option date :=
  '(y, s1) ← match_year s;
  match s1 with
  | 45%N :: s2 =>
      '(m, s3) ← find dash (month_alternatives s2);
      '(d, rest) ← head (day_alternatives (drop 1 s3));
      if bool_decide (rest = []) && (1 <=? y) && (d <=? days_in_month y m)
      then Some (Date y m d) else None
  | _ => None
  end.

Definition two_digits (n : Z) : pystr :=
  (if n <? 10 then lit "0" else []) ++ Py.str_of_int n.

(** [d.strftime("%Y-%m-%d")] with glibc, which does not pad the year. *)
Definition strftime (d : date) : pystr :=
  Py.str_of_int (year d) ++ lit "-" ++ two_digits (month d)
    ++ lit "-" ++ two_digits (day d).

End CPython.

(** ** The interface of the builtins

    [None] stands for the [ValueError] the conversion raises. *)

Class Builtins := {
  py_float : pystr → option float;       (* float(s) *)
  py_int : pystr → option Z;             (* int(s) *)
  py_str : float → pystr;                (* str(x), x a float *)
  strptime_ymd : pystr → option date;    (* datetime.strptime(s, "%Y-%m-%d").date() *)
  strftime_ymd : date → pystr;           (* d.strftime("%Y-%m-%d") *)
  date_today : date                      (* date.today() *)
}.

(** CPython 3.11 on Linux, with the clock stopped on 2024-01-10. *)
Definition cpython : Builtins := {|
  py_float := CPython.float_of_str;
  py_int := CPython.int_of_str;
  py_str := CPython.str_of_float;
  strptime_ymd := CPython.strptime;
  strftime_ymd := CPython.strftime;
  date_today := Date 2024 1 10
|}.

(** ** The data model (the [db.Model] classes) *)

Module Subject.
Record t := mk { id : Z; name : pystr }.
End Subject.

Module Score.
Record t := mk {
  id : Z;                   (* primary key *)
  the_date : date;
  subject_id : Z;
  score : option float;     (* db.Float, nullable *)
  rank : option Z;          (* db.Integer, nullable *)
  note : option pystr       (* db.Text, nullable *)
}.
End Score.

(** The [scores] table, in primary-key order. *)
Abbreviation table := (list Score.t).

(** ** What SQLite keeps

    The values of the columns [db.Integer] and [db.Float] on SQLite.
    sqlite3 binds a Python [int] as a signed 64-bit integer, and raises
    [OverflowError] for an [int] outside of that range.  It binds a NaN as
    NULL, and a REAL column keeps a number without a fraction as an
    integer, so that negative zero is read back as zero; every other
    binary64 is read back as it was bound. *)

Module SQLite.

(** The integers sqlite3 binds. *)
Definition fits (n : Z) : bool := (- 2 ^ 63 <=? n) && (n <? 2 ^ 63).

(** What a REAL column gives back for the float [x] bound to it; [None]
    is NULL. *)
Definition real (x : float) : option float :=
  if is_nan x then None
  else if (x =? 0)%float then Some 0%float
  else Some x.

End SQLite.

(** ** Requests, exceptions and the database session *)

(** The conversions that raise [ValueError], each with the string it was
    given: the text of the exception names the conversion and shows that
    string, and nothing else. *)
Inductive conversion := to_float | to_int | to_date.

(** [IntTooLarge] is the [OverflowError] of sqlite3, "Python int too large
    to convert to SQLite INTEGER"; its text shows no value. *)
Inductive exn :=
  | ValueError (what : conversion) (literal : pystr)
  | IntTooLarge.

(** [request.form]: the submitted fields in order; a key may repeat. *)
Abbreviation form := (list (pystr * pystr)).

(** [request.form.get(key)] *)
Definition form_get (f : form) (key : pystr) : option pystr :=
  snd <$> find (λ kv, bool_decide (kv.1 = key)) f.

(** [request.form.getlist(key)] *)
Definition form_getlist (f : form) (key : pystr) : list pystr :=
  snd <$> filter (λ kv, kv.1 = key) f.

(** The state a handler runs in: the table as last committed; the table
    as the open transaction of [db.session] has it once the pending
    statements are sent; and the integers those statements bind.  The
    session sends the pending statements (it flushes) before every query
    and on commit. *)
Record db_state := DB {
  committed : table;
  working : table;
  unflushed : list Z
}.

(** A handler: it reads and changes the state and returns or raises. *)
Definition handler (A : Type) : Type := db_state → db_state * (exn + A).

#[global] Instance handler_ret : MRet handler := λ A a st, (st, inr a).

#[global] Instance handler_bind : MBind handler := λ A B k m st,
  match m st with
  | (st', inr a) => k a st'
  | (st', inl e) => (st', inl e)
  end.

(** [for x in l: body(x)] *)
Fixpoint for_each {A} (l : list A) (body : A → handler unit) : handler unit :=
  match l with
  | [] => mret ()
  | x :: l' => body x;; for_each l' body
  end.

Definition same_key (d : date) (sid : Z) (r : Score.t) : bool :=
  bool_decide (Score.the_date r = d ∧ Score.subject_id r = sid).

(** [Score.query.filter_by(the_date=d, subject_id=sid).first()] on a table. *)
Definition query_first (d : date) (sid : Z) (t : table) : option Score.t :=
  find (same_key d sid) t.

(** The key SQLite gives the next inserted row: one more than the largest
    key in use, 1 in an empty table. *)
Definition next_id (t : table) : Z :=
  match Score.id <$> t with
  | [] => 1
  | i :: ids => 1 + foldr Z.max i ids
  end.

(** The row [row] with the columns [score], [rank] and [note] set to [s],
    [r] and [n], when it is the row of primary key [i]; any other row is
    left as it is. *)
Definition set_row (i : Z) (s : option float) (r : option Z)
    (n : option pystr) (row : Score.t) : Score.t :=
  if bool_decide (Score.id row = i)
  then Score.mk i (Score.the_date row) (Score.subject_id row) s r n
  else row.

Module Session.

(** The flush: the pending statements are sent, and their integers
    bound. *)
Definition flush : handler unit :=
  λ st, if forallb SQLite.fits (unflushed st)
        then (DB (committed st) (working st) [], inr ())
        else (st, inl IntTooLarge).

(** A query on the table of the transaction. *)
Definition read {A} (q : table → A) : handler A :=
  λ st, (st, inr (q (working st))).

(** An integer parameter of a query. *)
Definition bind_int (n : Z) : handler unit :=
  λ st, if SQLite.fits n then (st, inr ()) else (st, inl IntTooLarge).

(** [Score.query.filter_by(the_date=d, subject_id=sid).first()]: the
    session flushes, and the query binds [sid]. *)
Definition first (d : date) (sid : Z) : handler (option Score.t) :=
  flush;;
  bind_int sid;;
  read (query_first d sid).

(** [db.session.delete(row)]; the statement binds the primary key, which
    SQLite gave. *)
Definition delete (row : Score.t) : handler unit :=
  λ st, (DB (committed st)
            (filter (λ r, Score.id r ≠ Score.id row) (working st))
            (unflushed st), inr ()).

(** [row = Score(the_date=d, subject_id=sid); db.session.add(row)]:
    the new object, named by the key it is inserted under. *)
Definition add (d : date) (sid : Z) : handler Z :=
  λ st, let i := next_id (working st) in
        (DB (committed st)
            (working st ++ [Score.mk i d sid None None None])
            (unflushed st ++ [sid]), inr i).

(** [row.score = s; row.rank = r; row.note = n] for the row of key [i]:
    the statement binds the three values, and the row has what the
    columns keep of them.  (The object [row] has the Python values until
    the commit, and no view reads them back.  SQLAlchemy leaves a value
    that does not change the row out of the statement; such a rank is one
    the table holds, and binding it again, as here, makes no
    difference.) *)
Definition set_fields (i : Z) (s : option float) (r : option Z)
    (n : option pystr) : handler unit :=
  λ st, (DB (committed st)
            (set_row i (s ≫= SQLite.real) r n <$> working st)
            (unflushed st ++ option_list r), inr ()).

(** [db.session.commit()] *)
Definition commit : handler unit :=
  λ st, match flush st with
        | (st', inr _) => (DB (working st') (working st') [], inr ())
        | (st', inl e) => (st', inl e)
        end.

(** [db.session.remove()], which Flask-SQLAlchemy runs when the
    application context of a request is torn down, whether the view
    returned or raised: what was not committed is rolled back. *)
Definition remove (st : db_state) : db_state :=
  DB (committed st) (committed st) [].

End Session.

(** One request: the view runs in a fresh session on the table [t]; the
    result is the table afterwards and what the view returned or raised
    (an exception that leaves the view is answered with status 500). *)
Definition serve {A} (view : handler A) (t : table) : table * (exn + A) :=
  let '(st, r) := view (DB t t []) in (committed (Session.remove st), r).

(** ** The handlers *)

Section handlers.
Context `{Builtins}.

(** [str_to_date] *)
Definition str_to_date (s : option pystr) : exn + date :=
  match s with
  | None | Some [] => inr date_today
  | Some s =>
      match strptime_ymd s with
      | Some d => inr d
      | None => inl (ValueError to_date s)
      end
  end.

Definition lift {A} (r : exn + A) : handler A := λ st, (st, r).

(** [int(s)] and [float(s)], raising. *)
Definition int_ (s : pystr) : exn + Z :=
  match py_int s with Some n => inr n | None => inl (ValueError to_int s) end.

Definition float_ (s : pystr) : exn + float :=
  match py_float s with Some x => inr x | None => inl (ValueError to_float s) end.

(** [f"score[{sid}]"] and the like. *)
Definition field_key (field : string) (sid : Z) : pystr :=
  lit field ++ lit "[" ++ Py.str_of_int sid ++ lit "]".

(** [float(v) if v not in (None, '') else None] *)
Definition parse_score (v : option pystr) : exn + option float :=
  match v with
  | None | Some [] => inr None
  | Some s => match float_ s with inr x => inr (Some x) | inl e => inl e end
  end.

(** [int(v) if v not in (None, '') else None] *)
Definition parse_rank (v : option pystr) : exn + option Z :=
  match v with
  | None | Some [] => inr None
  | Some s => match int_ s with inr n => inr (Some n) | inl e => inl e end
  end.

(** [(v or '').strip() or None] *)
Definition parse_note (v : option pystr) : option pystr :=
  match Py.strip (default [] v) with
  | [] => None
  | s => Some s
  end.

(** The body of the loop of [save_scores], for one element of
    [score_subject_ids]. *)
Definition save_one (f : form) (d : date) (sid_str : pystr) : handler unit :=
  sid ← lift (int_ sid_str);
  let score_val := form_get f (field_key "score" sid) in
  let rank_val := form_get f (field_key "rank" sid) in
  let note_val := form_get f (field_key "note" sid) in
  score_f ← lift (parse_score score_val);
  rank_i ← lift (parse_rank rank_val);
  let note_s := parse_note note_val in
  row ← Session.first d sid;
  match score_f, rank_i, note_s with
  | None, None, None =>
      match row with
      | Some r => Session.delete r
      | None => mret ()
      end
  | _, _, _ =>
      i ← match row with
          | Some r => mret (Score.id r)
          | None => Session.add d sid
          end;
      Session.set_fields i score_f rank_i note_s
  end.

(** [save_scores]: the view of POST /scores/save.  It returns the date it
    redirects to. *)
Definition save_scores (f : form) : handler date :=
  d ← lift (str_to_date (form_get f (lit "the_date")));
  let ids := form_getlist f (lit "score_subject_ids") in
  for_each ids (save_one f d);;
  Session.commit;;
  mret d.

End handlers.

(** ** The canvas of reportlab

    A [canvas.Canvas] records the operations of the page being drawn;
    [showPage] closes that page and starts an empty one; [save] closes the
    page being drawn if anything was drawn on it. *)

Inductive op :=
  | SetFont (name : string) (size : Z)
  | DrawString (x y : float) (text : pystr).

Abbreviation page := (list op).

Record canvas := Canvas { pages : list page; code : page }.

Definition setFont (name : string) (size : Z) (c : canvas) : canvas :=
  Canvas (pages c) (code c ++ [SetFont name size]).

Definition drawString (x y : float) (text : pystr) (c : canvas) : canvas :=
  Canvas (pages c) (code c ++ [DrawString x y text]).

Definition showPage (c : canvas) : canvas :=
  Canvas (pages c ++ [code c]) [].

Definition save (c : canvas) : list page :=
  pages (match code c with [] => c | _ => showPage c end).

(** [reportlab.lib.units] and [reportlab.lib.pagesizes.A4], in points.
    Python and Rocq read a decimal literal as the nearest binary64 number. *)
#[local] Set Warnings "-inexact-float".
Definition inch : float := 72.
Definition cm : float := inch / 2.54.
Definition mm : float := cm * 0.1.
Definition A4 : float * float := (210 * mm, 297 * mm)%float.

(** ** The report *)

(** The text constants of [export_pdf], as code points. *)
Definition title_prefix : pystr :=
  [0x5bb6; 0x6559; 0x5b78; 0x751f; 0x6210; 0x7e3e; 0x20; 0xb7; 0x20]%N.
Definition continued : pystr := [0xff08; 0x7e8c; 0xff09]%N.
Definition label_subject : pystr := [0x79d1; 0x76ee]%N.
Definition label_score : pystr := [0x5206; 0x6578]%N.
Definition label_rank : pystr := [0x540d; 0x6b21]%N.
Definition label_note : pystr := [0x5099; 0x8a3b]%N.

Definition height : float := snd A4.
Definition line_h : float := 8 * mm.
Definition max_chars : nat := 40.

(** The x positions of the four columns. *)
Definition col_subject : float := 20 * mm.
Definition col_score : float := 60 * mm.
Definition col_rank : float := 85 * mm.
Definition col_note : float := 110 * mm.

(** [range(0, stop, step)] *)
Definition py_range (stop step : nat) : list nat :=
  (λ k, k * step)%nat <$> seq 0 ((stop + step - 1) / step)%nat.

(** [s[i:j]] for [i ≤ j] *)
Definition slice (s : pystr) (i j : nat) : pystr := take (j - i) (drop i s).

(** [[s[i:i + n] for i in range(0, len(s), n)]] *)
Definition chunks (s : pystr) (n : nat) : list pystr :=
  (λ i, slice s i (i + n)) <$> py_range (length s) n.

(** [{s.subject_id: s for s in raw_scores}]: a later row replaces an
    earlier one of the same subject. *)
Definition scores_map_of (raw_scores : table) : gmap Z Score.t :=
  foldl (λ m s, <[Score.subject_id s := s]> m) ∅ raw_scores.

(** [Score.query.filter_by(the_date=d).all()] *)
Definition scores_on (d : date) (t : table) : table :=
  filter (λ r, Score.the_date r = d) t.

(** The order of [Subject.name.asc()]: SQLite compares the UTF-8 bytes of
    the names, which is the lexicographic order of the code points. *)
Fixpoint str_leb (a b : pystr) : bool :=
  match a, b with
  | [], _ => true
  | _ :: _, [] => false
  | x :: a', y :: b' => (x <? y)%N || (x =? y)%N && str_leb a' b'
  end.

Definition name_le (s1 s2 : Subject.t) : Prop :=
  str_leb (Subject.name s1) (Subject.name s2) = true.

#[global] Instance name_le_dec s1 s2 : Decision (name_le s1 s2) :=
  decide (str_leb (Subject.name s1) (Subject.name s2) = true).

(** [Subject.query.order_by(Subject.name.asc()).all()] *)
Definition subjects_by_name (subjects : list Subject.t) : list Subject.t :=
  merge_sort name_le subjects.

Section report.
Context `{Builtins}.

(** The three cells of a subject's row (lines 197 to 200). *)
Definition score_str (row : option Score.t) : pystr :=
  match row with
  | Some {| Score.score := Some x |} => py_str x
  | _ => []
  end.

Definition rank_str (row : option Score.t) : pystr :=
  match row with
  | Some {| Score.rank := Some n |} => Py.str_of_int n
  | _ => []
  end.

Definition note_str (row : option Score.t) : pystr :=
  match row with
  | Some {| Score.note := Some s |} => s
  | _ => []
  end.

(** The title line and the header row, which [export_pdf] draws at the
    top of the first page (lines 183 to 194) and again after every page
    break (lines 204 to 213); the result is the canvas and the cursor [y]
    under the header. *)
Definition draw_header (title : pystr) (c : canvas) : canvas * float :=
  let c := setFont "Helvetica-Bold" 14 c in
  let c := drawString (20 * mm) (height - 20 * mm) title c in
  let c := setFont "Helvetica-Bold" 11 c in
  let y := (height - 30 * mm)%float in
  let c := drawString (20 * mm) y label_subject c in
  let c := drawString (60 * mm) y label_score c in
  let c := drawString (85 * mm) y label_rank c in
  let c := drawString (110 * mm) y label_note c in
  let y := (y - line_h)%float in
  let c := setFont "Helvetica" 11 c in
  (c, y).

(** The note of a row (lines 220 to 228). *)
Definition draw_note (note : pystr) (cy : canvas * float) : canvas * float :=
  let '(c, y) := cy in
  if (max_chars <? length note)%nat then
    let lines := chunks note max_chars in
    let c := drawString (110 * mm) y (default [] (head lines)) c in
    foldl (λ '(c, y) ln,
             let y := (y - (line_h - 2))%float in
             (drawString (110 * mm) y ln c, y))
          (c, y) (drop 1 lines)
  else (drawString (110 * mm) y note c, y).

(** The body of the loop over the subjects (lines 197 to 230). *)
Definition draw_subject (title : pystr) (scores_map : gmap Z Score.t)
    (cy : canvas * float) (subj : Subject.t) : canvas * float :=
  let '(c, y) := cy in
  let row := scores_map !! Subject.id subj in
  let '(c, y) :=
    if (y <? 20 * mm)%float
    then draw_header (title ++ continued) (showPage c)
    else (c, y) in
  let c := drawString (20 * mm) y (Subject.name subj) c in
  let c := drawString (60 * mm) y (score_str row) c in
  let c := drawString (85 * mm) y (rank_str row) c in
  let '(c, y) := draw_note (note_str row) (c, y) in
  (c, (y - line_h)%float).

(** The drawing part of [export_pdf] (lines 182 to 233): the pages drawn
    for the subjects [subjects], in that order. *)
Definition render (title : pystr) (scores_map : gmap Z Score.t)
    (subjects : list Subject.t) : list page :=
  let cy := draw_header title (Canvas [] []) in
  let '(c, _) := foldl (draw_subject title scores_map) cy subjects in
  save (showPage c).

(** The pages of the report of day [d] (lines 169 to 233). *)
Definition report (d : date) (subjects : list Subject.t) (t : table)
    : list page :=
  let subjects := subjects_by_name subjects in
  let scores_map := scores_map_of (scores_on d t) in
  render (title_prefix ++ strftime_ymd d) scores_map subjects.

(** [export_pdf]: the view of GET /export/pdf, which only reads the two
    tables; the result is the pages of the document it sends. *)
Definition export_pdf (arg_d : option pystr) (subjects : list Subject.t)
    (t : table) : exn + list page :=
  match str_to_date arg_d with
  | inr d => inr (report d subjects t)
  | inl e => inl e
  end.

End report.

(** [delete_subject]: deleting a subject deletes its scores (the
    relationship cascades); the effect on the [scores] table. *)
Definition delete_subject_scores (sid : Z) (t : table) : table :=
  filter (λ r, Score.subject_id r ≠ sid) t.

(** * Properties of the ledger *)

(** The constraints of the schema: the primary key, and
    [uq_score_date_subject].  [save_scores] adds a row only for a key the
    query found no row for, so that it never runs into the constraint:
    the constraints are invariants of the table ([steps_ok]). *)
Definition key_of (r : Score.t) : date * Z :=
  (Score.the_date r, Score.subject_id r).

Record table_ok (t : table) : Prop := {
  pk_unique : NoDup (Score.id <$> t);
  key_unique : NoDup (key_of <$> t)
}.

(** A row with no score, no rank and no note. *)
Definition blank (r : Score.t) : Prop :=
  Score.score r = None ∧ Score.rank r = None ∧ Score.note r = None.

(** What the column [score] keeps of a parsed score. *)
Definition kept (s : option float) : option float := s ≫= SQLite.real.

(** A row of an SQLite table: its integers are 64-bit integers, and its
    score is one a REAL column gives back. *)
Definition sqlite_row (r : Score.t) : Prop :=
  SQLite.fits (Score.subject_id r) = true
  ∧ (∀ m, Score.rank r = Some m → SQLite.fits m = true)
  ∧ kept (Score.score r) = Score.score r.

(** The rules of the specification for the fields of a subject, to
    compare [parse_score], [parse_rank] and [parse_note] with.

    Rules 1 and 2: parse score as a real number, and rank as an integer,
    if the submitted value is non-empty, else treat as absent.  A value
    is [None] when the field is not submitted; [conv] is the parser of the
    number, and [x] what is parsed. *)
Definition spec_number {A} (conv : pystr → option A) (v : option pystr)
    (x : option A) : Prop :=
  match v with
  | None | Some [] => x = None
  | Some s => is_Some x ∧ conv s = x
  end.

(** Rule 3: normalize note: trim whitespace; an all-whitespace or empty
    result is absent. *)
Definition spec_note (v : option pystr) : option pystr :=
  match v with
  | Some s => if decide (Py.strip s = []) then None else Some (Py.strip s)
  | None => None
  end.

Section ledger.
Context `{Builtins}.

(** The list [ids] of [save_scores], and the ids it denotes. *)
Definition submitted_ids (f : form) : list pystr :=
  form_getlist f (lit "score_subject_ids").

Definition listed (f : form) (sid : Z) : Prop :=
  ∃ s, s ∈ submitted_ids f ∧ py_int s = Some sid.

(** What [save_scores] parses for subject [sid]. *)
Definition parsed_score (f : form) (sid : Z) : exn + option float :=
  parse_score (form_get f (field_key "score" sid)).
Definition parsed_rank (f : form) (sid : Z) : exn + option Z :=
  parse_rank (form_get f (field_key "rank" sid)).
Definition parsed_note (f : form) (sid : Z) : option pystr :=
  parse_note (form_get f (field_key "note" sid)).

(** The effect of one iteration on the table of the session. *)
Definition apply_edit (d : date) (sid : Z) (s : option float)
    (r : option Z) (n : option pystr) (w : table) : table :=
  match s, r, n with
  | None, None, None =>
      match query_first d sid w with
      | Some row => filter (λ x, Score.id x ≠ Score.id row) w
      | None => w
      end
  | _, _, _ =>
      match query_first d sid w with
      | Some row => set_row (Score.id row) (kept s) r n <$> w
      | None =>
          set_row (next_id w) (kept s) r n <$>
            (w ++ [Score.mk (next_id w) d sid None None None])
      end
  end.

(** The integers the statements of one iteration bind. *)
Definition edit_binds (d : date) (sid : Z) (s : option float)
    (r : option Z) (n : option pystr) (w : table) : list Z :=
  match s, r, n with
  | None, None, None => []
  | _, _, _ =>
      match query_first d sid w with
      | Some _ => []
      | None => [sid]
      end ++ option_list r
  end.

(** The iterations of the loop of a request that returns, as steps on the
    table of the session: every conversion returns, and every integer
    bound is one SQLite has. *)
Inductive steps (f : form) (d : date) : list pystr → table → table → Prop :=
  | steps_nil w : steps f d [] w w
  | steps_cons s ids sid sc rk w w' :
      py_int s = Some sid →
      parsed_score f sid = inr sc →
      parsed_rank f sid = inr rk →
      SQLite.fits sid = true →
      (∀ m, rk = Some m → SQLite.fits m = true) →
      steps f d ids (apply_edit d sid sc rk (parsed_note f sid) w) w' →
      steps f d (s :: ids) w w'.

(** The conversion [what] raises on the string [s]. *)
Definition rejected (what : conversion) (s : pystr) : Prop :=
  match what with
  | to_float => py_float s = None
  | to_int => py_int s = None
  | to_date => strptime_ymd s = None
  end.

(** An integer the request has to bind: the id of a listed subject, or the
    rank submitted for one. *)
Definition binds (f : form) (n : Z) : Prop :=
  ∃ s sid, s ∈ submitted_ids f ∧ py_int s = Some sid
    ∧ (n = sid
       ∨ ∃ v, form_get f (field_key "rank" sid) = Some v ∧ v ≠ []
              ∧ py_int v = Some n).

(** What an exception of [save_scores] tells of the request: a string a
    conversion refuses, or an integer SQLite does not have. *)
Definition explains (f : form) (e : exn) : Prop :=
  match e with
  | ValueError what literal => rejected what literal
  | IntTooLarge => ∃ n, binds f n ∧ SQLite.fits n = false
  end.

(** A submitted value of subject [sid] that is not empty and that the
    conversion refuses. *)
Definition invalid_score (f : form) (sid : Z) : Prop :=
  ∃ s, form_get f (field_key "score" sid) = Some s ∧ s ≠ [] ∧ py_float s = None.
Definition invalid_rank (f : form) (sid : Z) : Prop :=
  ∃ s, form_get f (field_key "rank" sid) = Some s ∧ s ≠ [] ∧ py_int s = None.

(** What the table holds for the key of a subject after the edit that
    parsed as [s], [r], [n]. *)
Definition holds_edit (d : date) (sid : Z) (s : option float) (r : option Z)
    (n : option pystr) (w : table) : Prop :=
  match query_first d sid w with
  | Some row =>
      (s, r, n) ≠ (None, None, None)
      ∧ Score.score row = kept s ∧ Score.rank row = r ∧ Score.note row = n
  | None => s = None ∧ r = None ∧ n = None
  end.

End ledger.

(** * Properties of the report *)

(** The strings a page draws, each with its x position, in order. *)
Definition drawn (p : page) : list (float * pystr) :=
  p ≫= λ o, match o with
            | DrawString x _ s => [(x, s)]
            | SetFont _ _ => []
            end.

(** The operations [draw_header] adds to a page, and the cursor under the
    header. *)
Definition header_ops (title : pystr) : page :=
  [SetFont "Helvetica-Bold" 14;
   DrawString (20 * mm) (height - 20 * mm) title;
   SetFont "Helvetica-Bold" 11;
   DrawString (20 * mm) (height - 30 * mm) label_subject;
   DrawString (60 * mm) (height - 30 * mm) label_score;
   DrawString (85 * mm) (height - 30 * mm) label_rank;
   DrawString (110 * mm) (height - 30 * mm) label_note;
   SetFont "Helvetica" 11]%float.

Definition header_y : float := (height - 30 * mm - line_h)%float.

(** The title line and the header row, as a page draws them. *)
Definition header_texts (title : pystr) : list (float * pystr) :=
  [(col_subject, title); (col_subject, label_subject);
   (col_score, label_score); (col_rank, label_rank); (col_note, label_note)].

(** The lines a note is drawn in. *)
Definition note_lines (note : pystr) : list pystr :=
  if (max_chars <? length note)%nat then chunks note max_chars else [note].

(** The continuation lines of a note under the cursor [y], each one
    [line_h - 2] under the line before, and the cursor after them. *)
Fixpoint stacked_ops (y : float) (lines : list pystr) : page :=
  match lines with
  | [] => []
  | ln :: rest =>
      DrawString (110 * mm) (y - (line_h - 2)) ln
        :: stacked_ops (y - (line_h - 2)) rest
  end.

Fixpoint stacked_y (y : float) (lines : list pystr) : float :=
  match lines with
  | [] => y
  | _ :: rest => stacked_y (y - (line_h - 2)) rest
  end.

(** The operations that draw the lines of a note from the cursor [y]. *)
Definition note_ops (y : float) (lines : list pystr) : page :=
  match lines with
  | [] => []
  | ln :: rest => DrawString (110 * mm) y ln :: stacked_ops y rest
  end.

(** The pages of a report, with the page being drawn as the last one. *)
Definition all_pages (c : canvas) : list page := pages c ++ [code c].

(** The title of the page of index [i]. *)
Definition page_title (title : pystr) (i : nat) : pystr :=
  match i with O => title | S _ => title ++ continued end.

Section report_props.
Context `{Builtins}.

(** The operations that draw the row of a subject from the cursor [y]. *)
Definition row_ops (scores_map : gmap Z Score.t) (y : float)
    (subj : Subject.t) : page :=
  let row := scores_map !! Subject.id subj in
  [DrawString (20 * mm) y (Subject.name subj);
   DrawString (60 * mm) y (score_str row);
   DrawString (85 * mm) y (rank_str row)]
  ++ note_ops y (note_lines (note_str row)).

(** The cells of the row of a subject, as a page draws them. *)
Definition row_texts (scores_map : gmap Z Score.t) (subj : Subject.t)
    : list (float * pystr) :=
  let row := scores_map !! Subject.id subj in
  [(col_subject, Subject.name subj); (col_score, score_str row);
   (col_rank, rank_str row)]
  ++ ((λ ln, (col_note, ln)) <$> note_lines (note_str row)).

(** What a page with the rows of the subjects [g] draws. *)
Definition page_texts (title : pystr) (scores_map : gmap Z Score.t)
    (g : list Subject.t) : list (float * pystr) :=
  header_texts title ++ (g ≫= row_texts scores_map).

End report_props.

(** * Concrete requests *)

Module Examples.

Definition jan10 : date := Date 2024 1 10.

(** The submission of the two subjects A (id 1) and B (id 2): a score and
    a rank for A, a note of two spaces for B. *)
Definition two_subjects : form :=
  [(lit "the_date", lit "2024-01-10");
   (lit "score_subject_ids", lit "1"); (lit "score_subject_ids", lit "2");
   (lit "score[1]", lit "88"); (lit "rank[1]", lit "2"); (lit "note[1]", []);
   (lit "score[2]", []); (lit "rank[2]", []); (lit "note[2]", lit "  ")].

(** A table in which subject 1 has a note, and subject 3 a row. *)
Definition before : table :=
  [Score.mk 1 jan10 1 (Some 70%float) (Some 5) (Some (lit "old"));
   Score.mk 2 jan10 3 None (Some 1) None].

Definition after : table :=
  [Score.mk 1 jan10 1 (Some 88%float) (Some 2) None;
   Score.mk 2 jan10 3 None (Some 1) None].

(** The table after [two_subjects] on an empty table. *)
Definition first_day : table :=
  [Score.mk 1 jan10 1 (Some 88%float) (Some 2) None].

(** A valid score for subject 1 and a rank for subject 2 that is not a
    number. *)
Definition one_bad_rank : form :=
  [(lit "the_date", lit "2024-01-10");
   (lit "score_subject_ids", lit "1"); (lit "score_subject_ids", lit "2");
   (lit "score[1]", lit "95.5"); (lit "rank[2]", lit "first")].

(** The rank ["x"] for the only listed subject [sid]. *)
Definition rank_x (sid : string) : form :=
  [(lit "the_date", lit "2024-01-10");
   (lit "score_subject_ids", lit sid);
   (lit ("rank[" ++ sid ++ "]"), lit "x")].

(** A listed subject id that is not a number. *)
Definition id_x : form :=
  [(lit "the_date", lit "2024-01-10"); (lit "score_subject_ids", lit "x")].

(** Subject 1 is listed, and none of its three fields is submitted. *)
Definition listed_without_fields : form :=
  [(lit "the_date", lit "2024-01-10"); (lit "score_subject_ids", lit "1")].

(** Subject 1 is listed with three empty fields. *)
Definition cleared : form :=
  [(lit "the_date", lit "2024-01-10"); (lit "score_subject_ids", lit "1");
   (lit "score[1]", []); (lit "rank[1]", []); (lit "note[1]", lit " ")].

(** Subject 1 with a score, a rank and a note with spaces around it. *)
Definition with_note : form :=
  [(lit "the_date", lit "2024-01-10"); (lit "score_subject_ids", lit "1");
   (lit "score[1]", lit "91.5"); (lit "rank[1]", lit "3");
   (lit "note[1]", lit "  good work ")].

Definition noted : table :=
  [Score.mk 1 jan10 1 (Some 91.5%float) (Some 3) (Some (lit "good work"));
   Score.mk 2 jan10 3 None (Some 1) None].

(** The score [score] and the rank 2 for subject 1. *)
Definition score_and_rank (score : string) : form :=
  [(lit "the_date", lit "2024-01-10"); (lit "score_subject_ids", lit "1");
   (lit "score[1]", lit score); (lit "rank[1]", lit "2")].

(** The score ["nan"] for subject 1, and nothing else. *)
Definition nan_alone : form :=
  [(lit "the_date", lit "2024-01-10"); (lit "score_subject_ids", lit "1");
   (lit "score[1]", lit "nan"); (lit "rank[1]", []); (lit "note[1]", [])].

(** The rank [rank] for subject 1. *)
Definition rank_of (rank : string) : form :=
  [(lit "the_date", lit "2024-01-10"); (lit "score_subject_ids", lit "1");
   (lit "rank[1]", lit rank)].

(** The listed ids [ids], with the rank [2 ^ 63] for subject 1 and the
    rank ["x"] for subject 3. *)
Definition large_rank (ids : list string) : form :=
  (lit "the_date", lit "2024-01-10")
  :: ((λ s, (lit "score_subject_ids", lit s)) <$> ids)
  ++ [(lit "rank[1]", lit "9223372036854775808"); (lit "rank[3]", lit "x")].

(** The rank -5 for subject 1. *)
Definition negative_rank : form :=
  [(lit "the_date", lit "2024-01-10"); (lit "score_subject_ids", lit "1");
   (lit "rank[1]", lit "-5")].

Definition subjects : list Subject.t :=
  [Subject.mk 1 (lit "math"); Subject.mk 2 (lit "art"); Subject.mk 3 (lit "zoo")].

(** A note of 85 characters, and one of 1700. *)
Definition note85 : pystr := replicate 85 120%N.
Definition note1700 : pystr := replicate 1700 120%N.

End Examples.

(** * The rest of the application

    The views and functions of [app.py] besides [save_scores] and
    [export_pdf]: the calendar of [scores_view], the subject registry
    ([add_subject], [delete_subject]) and [init_db]. *)

(** ** [datetime.date]: ordinals, arithmetic and the day of the week

    The functions of CPython's [datetime] module that [scores_view] uses,
    as the module defines them. *)

Module Calendar.

Definition MINYEAR : Z := 1.
Definition MAXYEAR : Z := 9999.
Definition MAXORDINAL : Z := 3652059.

Definition DAYS_IN_MONTH : list Z :=
  [-1; 31; 28; 31; 30; 31; 30; 31; 31; 30; 31; 30; 31].
Definition DAYS_BEFORE_MONTH : list Z :=
  [-1; 0; 31; 59; 90; 120; 151; 181; 212; 243; 273; 304; 334].

Definition is_leap (y : Z) : bool :=
  (y mod 4 =? 0) && (negb (y mod 100 =? 0) || (y mod 400 =? 0)).

Definition days_before_year (year : Z) : Z :=
  let y := year - 1 in y * 365 + y / 4 - y / 100 + y / 400.

Definition days_in_month (y m : Z) : Z :=
  if (m =? 2) && is_leap y then 29 else nth (Z.to_nat m) DAYS_IN_MONTH 0.

Definition days_before_month (y m : Z) : Z :=
  nth (Z.to_nat m) DAYS_BEFORE_MONTH 0
  + (if (2 <? m) && is_leap y then 1 else 0).

Definition ymd2ord (y m d : Z) : Z :=
  days_before_year y + days_before_month y m + d.

Definition DI400Y : Z := 146097.
Definition DI100Y : Z := 36524.
Definition DI4Y : Z := 1461.

(** [_ord2ymd] *)
Definition ord2ymd (n : Z) : date :=
  let n := n - 1 in
  let n400 := n / DI400Y in let n := n mod DI400Y in
  let year := n400 * 400 + 1 in
  let n100 := n / DI100Y in let n := n mod DI100Y in
  let n4 := n / DI4Y in let n := n mod DI4Y in
  let n1 := n / 365 in let n := n mod 365 in
  let year := year + n100 * 100 + n4 * 4 + n1 in
  if (n1 =? 4) || (n100 =? 4) then Date (year - 1) 12 31
  else
    let leapyear := (n1 =? 3) && (negb (n4 =? 24) || (n100 =? 3)) in
    let month := Z.shiftr (n + 50) 5 in
    let preceding :=
      nth (Z.to_nat month) DAYS_BEFORE_MONTH 0
      + (if (2 <? month) && leapyear then 1 else 0) in
    let '(month, preceding) :=
      if n <? preceding
      then (month - 1,
            preceding - (nth (Z.to_nat (month - 1)) DAYS_IN_MONTH 0
                         + (if (month - 1 =? 2) && leapyear then 1 else 0)))
      else (month, preceding) in
    Date year month (n - preceding + 1).

(** [_check_date_fields]: what makes a [date]. *)
Definition check_date_fields (y m d : Z) : bool :=
  (MINYEAR <=? y) && (y <=? MAXYEAR) && (1 <=? m) && (m <=? 12)
  && (1 <=? d) && (d <=? days_in_month y m).

Definition valid (d : date) : Prop :=
  check_date_fields (year d) (month d) (day d) = true.

(** [d.toordinal()] *)
Definition toordinal (d : date) : Z := ymd2ord (year d) (month d) (day d).

(** [d + timedelta(days=n)]: [None] stands for the [OverflowError]. *)
Definition add_days (d : date) (n : Z) : option date :=
  let o := toordinal d + n in
  if (0 <? o) && (o <=? MAXORDINAL) then Some (ord2ymd o) else None.

(** [d.replace(day=n)]: [None] stands for the [ValueError]. *)
Definition replace_day (d : date) (n : Z) : option date :=
  if check_date_fields (year d) (month d) n
  then Some (Date (year d) (month d) n) else None.

(** [d.weekday()]: 0 is Monday. *)
Definition weekday (d : date) : Z := (toordinal d + 6) mod 7.

End Calendar.

(** ** The application state and its other views *)

(** The two tables. *)
Record app_state := App { subjects_of : list Subject.t; scores_of : table }.

(** How a view can fail: an exception of [exn] ([save_scores] raises
    one, and so does a lookup that binds an integer SQLite does not
    have), the [OverflowError] of date arithmetic, the [ValueError] of
    [date.replace], an [IndexError], or the 404 of [get_or_404]. *)
Inductive failure :=
  | Raised (e : exn)
  | OverflowError
  | FieldError
  | IndexError
  | NotFound.

#[global] Instance failure_ret : MRet (sum failure) := λ A a, inr a.

#[global] Instance failure_bind : MBind (sum failure) := λ A B k m,
  match m with
  | inr a => k a
  | inl e => inl e
  end.

Definition or_raise {A} (e : failure) (o : option A) : failure + A :=
  match o with Some a => inr a | None => inl e end.

Definition WEEKDAY_ZH : list pystr :=
  [[0x4e00]; [0x4e8c]; [0x4e09]; [0x56db]; [0x4e94]; [0x516d]; [0x65e5]]%N.

(** What [scores_view] hands to the template. *)
Record view_context := Context {
  v_d : date;
  v_weekday : pystr;
  v_subjects : list Subject.t;
  v_scores_map : gmap Z Score.t;
  v_first_day : date;
  v_prev_month : date;
  v_next_month : date
}.

(** A message of [flash], with its category. *)
Record flashed := Flash { category : string; message : pystr }.

Definition msg_name_empty : pystr :=
  [0x79d1; 0x76ee; 0x540d; 0x7a31; 0x4e0d; 0x53ef; 0x70ba; 0x7a7a; 0x3002]%N.
Definition msg_name_exists : pystr :=
  [0x79d1; 0x76ee; 0x5df2; 0x5b58; 0x5728; 0x3002]%N.
Definition msg_added : pystr :=
  [0x5df2; 0x65b0; 0x589e; 0x79d1; 0x76ee; 0xff1a]%N.
Definition msg_deleted : pystr :=
  [0x5df2; 0x522a; 0x9664; 0x79d1; 0x76ee; 0xff1a]%N.

(** The names [init_db] registers in an empty table. *)
Definition initial_names : list pystr :=
  [[0x570b; 0x6587]; [0x82f1; 0x6587]; [0x6578; 0x5b78]; [0x81ea; 0x7136];
   [0x793e; 0x6703]]%N.

(** The key SQLite gives the next inserted subject. *)
Definition next_subject_id (l : list Subject.t) : Z :=
  match Subject.id <$> l with
  | [] => 1
  | i :: ids => 1 + foldr Z.max i ids
  end.

(** [db.session.add(Subject(name=name))], flushed. *)
Definition insert_subject (l : list Subject.t) (name : pystr)
    : list Subject.t :=
  l ++ [Subject.mk (next_subject_id l) name].

(** [init_db]: the tables exist in the model, and the column [note] with
    them; the five subjects are registered when there is none. *)
Definition init_db (a : app_state) : app_state :=
  if (length (subjects_of a) =? 0)%nat
  then App (foldl insert_subject (subjects_of a) initial_names) (scores_of a)
  else a.

(** [add_subject]: the view of POST /subjects/add. *)
Definition add_subject (f : form) (a : app_state) : app_state * flashed :=
  let name := Py.strip (default [] (form_get f (lit "name"))) in
  match name with
  | [] => (a, Flash "error" msg_name_empty)
  | _ =>
      match find (λ s, bool_decide (Subject.name s = name)) (subjects_of a) with
      | Some _ => (a, Flash "error" msg_name_exists)
      | None =>
          (App (insert_subject (subjects_of a) name) (scores_of a),
           Flash "success" (msg_added ++ name))
      end
  end.

(** [delete_subject]: the view of POST /subjects/<int:sid>/delete.  The
    lookup of [get_or_404] binds [sid].  The relationship cascades: the
    scores of the subject are deleted with it. *)
Definition delete_subject (sid : Z) (a : app_state) : app_state * (failure + flashed) :=
  if SQLite.fits sid
  then
    match find (λ s, bool_decide (Subject.id s = sid)) (subjects_of a) with
    | None => (a, inl NotFound)
    | Some subj =>
        (App (filter (λ s, Subject.id s ≠ sid) (subjects_of a))
             (delete_subject_scores sid (scores_of a)),
         inr (Flash "success" (msg_deleted ++ Subject.name subj)))
    end
  else (a, inl (Raised IntTooLarge)).

(** The cursor of the report under the header after [j] rows of one
    line. *)
Definition cursor (j : nat) : float :=
  Nat.iter j (λ y, (y - line_h)%float) header_y.

(** The rows a page holds when every note fits one line. *)
Definition rows_per_page : nat := 30.

Section views.
Context `{Builtins}.

(** [save_scores] on the application state. *)
Definition app_save_scores (f : form) (a : app_state) : app_state * (exn + date) :=
  let '(t, r) := serve (save_scores f) (scores_of a) in (App (subjects_of a) t, r).

(** The first days of the month of [d], of the month after and of the
    month before (lines 90 to 92). *)
Definition month_navigation (d : date) : failure + (date * date * date) :=
  first_day ← or_raise FieldError (Calendar.replace_day d 1);
  d28 ← or_raise FieldError (Calendar.replace_day first_day 28);
  later ← or_raise OverflowError (Calendar.add_days d28 4);
  next_month ← or_raise FieldError (Calendar.replace_day later 1);
  before ← or_raise OverflowError (Calendar.add_days first_day (-1));
  prev_month ← or_raise FieldError (Calendar.replace_day before 1);
  mret (first_day, next_month, prev_month).

(** The first day of the month of [d], of the month after it and of the
    month before it, as the calendar has them. *)
Definition first_of_month (d : date) : date := Date (year d) (month d) 1.

Definition first_of_next_month (d : date) : date :=
  if month d =? 12 then Date (year d + 1) 1 1
  else Date (year d) (month d + 1) 1.

Definition first_of_prev_month (d : date) : date :=
  if month d =? 1 then Date (year d - 1) 12 1
  else Date (year d) (month d - 1) 1.

Definition date_eqb (a b : date) : bool := bool_decide (a = b).

(** The months [month_navigation] runs out of the calendar in. *)
Definition at_calendar_end (d : date) : bool :=
  (year d =? 9999) && (month d =? 12) || (year d =? 1) && (month d =? 1).

(** [month_navigation] agrees with the calendar in month [m] of year [y];
    this is checked by evaluation for every month of the years 1 to
    9999. *)
Definition navigation_agrees (y m : Z) : bool :=
  let d := Date y m 1 in
  match month_navigation d with
  | inr (fd, nm, pm) =>
      negb (at_calendar_end d) && date_eqb fd (first_of_month d)
      && date_eqb nm (first_of_next_month d)
      && date_eqb pm (first_of_prev_month d)
  | inl OverflowError => at_calendar_end d
  | inl _ => false
  end.

Definition all_years : list Z := Z.of_nat <$> seq 1 (Z.to_nat Calendar.MAXYEAR).
Definition all_months : list Z := Z.of_nat <$> seq 1 12.

(** [WEEKDAY_ZH[d.weekday()] if d.weekday() < 7 else WEEKDAY_ZH[6]] *)
Definition weekday_label (d : date) : failure + pystr :=
  let w := Calendar.weekday d in
  or_raise IndexError
    (if w <? 7
     then (if 0 <=? w then WEEKDAY_ZH !! Z.to_nat w
           else WEEKDAY_ZH !! Z.to_nat (7 + w))
     else WEEKDAY_ZH !! 6%nat).

(** [scores_view]: the view of GET /scores; the result is the context of
    the template. *)
Definition scores_view (arg_d : option pystr) (a : app_state)
    : failure + view_context :=
  d ← match str_to_date arg_d with
      | inr d => inr d
      | inl e => inl (Raised e)
      end;
  '(first_day, next_month, prev_month) ← month_navigation d;
  let subjects := subjects_by_name (subjects_of a) in
  let scores_map := scores_map_of (scores_on d (scores_of a)) in
  weekday ← weekday_label d;
  mret (Context d weekday subjects scores_map first_day prev_month next_month).

(** [root]: the view of GET /; the result is the [d] of the redirect. *)
Definition root : pystr := strftime_ymd date_today.

(** The states the application reaches. *)
Inductive app_reachable : app_state → Prop :=
  | app_start : app_reachable (init_db (App [] []))
  | app_restart a : app_reachable a → app_reachable (init_db a)
  | app_add f a : app_reachable a → app_reachable (add_subject f a).1
  | app_delete sid a : app_reachable a → app_reachable (delete_subject sid a).1
  | app_save f a : app_reachable a → app_reachable (app_save_scores f a).1.

(** The operations a page draws for the rows [g], each of one line. *)
Definition page_ops (title : pystr) (scores_map : gmap Z Score.t)
    (i : nat) (g : list Subject.t) : page :=
  header_ops (page_title title i)
  ++ concat (imap (λ k subj, row_ops scores_map (cursor k) subj) g).

(** The note of the subject fits one line of the report. *)
Definition one_line (scores_map : gmap Z Score.t) (subj : Subject.t) : Prop :=
  (length (note_str (scores_map !! Subject.id subj)) ≤ max_chars)%nat.

(** The cells [export_pdf] draws for a row that holds [s], [r], [n]. *)
Definition cells_of (name : pystr) (s : option float) (r : option Z)
    (n : option pystr) : list (float * pystr) :=
  [(col_subject, name);
   (col_score, match s with Some x => py_str x | None => [] end);
   (col_rank, match r with Some k => Py.str_of_int k | None => [] end)]
  ++ ((λ ln, (col_note, ln)) <$> note_lines (default [] n)).

End views.

Module MoreExamples.

Definition start : app_state := init_db (App [] []).

Definition name_form (name : string) : form := [(lit "name", lit name)].

(** Rows of two days. *)
Definition two_days : table :=
  [Score.mk 1 (Date 2024 1 9) 1 (Some 60%float) None None;
   Score.mk 2 (Date 2024 1 10) 1 (Some 70%float) (Some 5) None].

(** The state after the subjects of [start] got two scores. *)
Definition with_scores : app_state :=
  App (subjects_of start)
      [Score.mk 1 (Date 2024 1 10) 3 (Some 90%float) None None;
       Score.mk 2 (Date 2024 1 10) 1 None (Some 4) None;
       Score.mk 3 (Date 2024 1 11) 3 None None (Some (lit "good"))].

(** Thirty-one subjects, named by their numbers. *)
Definition many_subjects : list Subject.t :=
  (λ i, Subject.mk (Z.of_nat i) (Py.str_of_int (Z.of_nat i))) <$> seq 1 31.

End MoreExamples.
(** * Proofs: the ledger *)

Section ledger_proofs.
Context `{Builtins}.

Lemma save_one_raises_int f d s st :
  py_int s = None → save_one f d s st = (st, inl (ValueError to_int s)).
Proof. intros E. unfold save_one, lift, int_. rewrite E. reflexivity. Qed.

Lemma forallb_false_elem {A} (p : A → bool) (l : list A) :
  forallb p l = false → ∃ x, x ∈ l ∧ p x = false.
Proof.
  induction l as [|x l IH]; [done|]. cbn. destruct (p x) eqn:E.
  - intros (y&?&?)%IH. exists y. split; [by right|done].
  - intros _. exists x. split; [by left|done].
Qed.

Lemma forallb_Forall {A} (p : A → bool) (l : list A) :
  forallb p l = true ↔ Forall (λ x, p x = true) l.
Proof.
  induction l as [|x l IH]; cbn.
  - split; [constructor|done].
  - rewrite andb_true_iff, Forall_cons, IH. done.
Qed.

(** One iteration: the conversions, the flush and the query, the edit. *)
Lemma save_one_eq f d s sid st :
  py_int s = Some sid →
  save_one f d s st =
    match parsed_score f sid, parsed_rank f sid with
    | inl e, _ => (st, inl e)
    | inr _, inl e => (st, inl e)
    | inr sc, inr rk =>
        if forallb SQLite.fits (unflushed st)
        then if SQLite.fits sid
             then (DB (committed st)
                     (apply_edit d sid sc rk (parsed_note f sid) (working st))
                     (edit_binds d sid sc rk (parsed_note f sid) (working st)),
                   inr ())
             else (DB (committed st) (working st) [], inl IntTooLarge)
        else (st, inl IntTooLarge)
    end.
Proof.
  intros E. unfold save_one, lift, int_, parsed_score, parsed_rank, parsed_note.
  rewrite E. unfold mbind, handler_bind; cbn.
  destruct (parse_score _) as [e|sc]; [reflexivity|].
  destruct (parse_rank _) as [e|rk]; [reflexivity|].
  unfold Session.first, Session.flush, Session.bind_int, Session.read,
    mbind, handler_bind.
  destruct (forallb SQLite.fits (unflushed st)); [|reflexivity].
  destruct (SQLite.fits sid); [|reflexivity].
  cbn [committed working unflushed]. unfold apply_edit, edit_binds.
  destruct (query_first d sid (working st)) as [row|];
    destruct sc, rk, (parse_note _); reflexivity.
Qed.

Lemma for_each_cons {A} (x : A) l body st :
  for_each (x :: l) body st =
    match body x st with
    | (st', inr _) => for_each l body st'
    | (st', inl e) => (st', inl e)
    end.
Proof. reflexivity. Qed.

Lemma save_one_committed f d s st st' r :
  save_one f d s st = (st', r) → committed st' = committed st.
Proof.
  destruct (py_int s) as [sid|] eqn:Es.
  - rewrite (save_one_eq _ _ _ sid) by done.
    destruct (parsed_score f sid); [by intros [= <- _]|].
    destruct (parsed_rank f sid); [by intros [= <- _]|].
    destruct (forallb _ _); [|by intros [= <- _]].
    destruct (SQLite.fits sid); by intros [= <- _].
  - rewrite save_one_raises_int by done. by intros [= <- _].
Qed.

Lemma for_each_committed f d ids st st' r :
  for_each ids (save_one f d) st = (st', r) → committed st' = committed st.
Proof.
  revert st. induction ids as [|s ids IH]; intros st E.
  - by inversion E.
  - rewrite for_each_cons in E.
    destruct (save_one f d s st) as [st1 [e|[]]] eqn:E1.
    + inversion E; subst. by eapply save_one_committed.
    + apply IH in E. rewrite E. by eapply save_one_committed.
Qed.

Lemma edit_binds_rank d sid sc rk n w m :
  forallb SQLite.fits (edit_binds d sid sc rk n w) = true →
  rk = Some m → SQLite.fits m = true.
Proof.
  intros Hb ->. unfold edit_binds in Hb.
  assert (forallb SQLite.fits
            (match query_first d sid w with Some _ => [] | None => [sid] end
             ++ option_list (Some m)) = true) as Hb'
    by (by destruct sc, n).
  rewrite forallb_app, andb_true_iff in Hb'. destruct Hb' as [_ Hm].
  cbn in Hm. by rewrite andb_true_r in Hm.
Qed.

Lemma edit_binds_fit d sid sc rk n w :
  SQLite.fits sid = true → (∀ m, rk = Some m → SQLite.fits m = true) →
  forallb SQLite.fits (edit_binds d sid sc rk n w) = true.
Proof.
  intros Hs Hr. unfold edit_binds.
  assert (forallb SQLite.fits
            (match query_first d sid w with Some _ => [] | None => [sid] end
             ++ option_list rk) = true) as Hb.
  { rewrite forallb_app, andb_true_iff. split.
    - destruct (query_first d sid w); cbn; [done|by rewrite Hs].
    - destruct rk as [m|]; cbn; [|done]. by rewrite (Hr m). }
  by destruct sc, rk, n.
Qed.

(** A loop that returns, and whose last statements can be sent, has run
    every iteration. *)
Lemma for_each_returns f d ids st st' :
  for_each ids (save_one f d) st = (st', inr ()) →
  forallb SQLite.fits (unflushed st') = true →
  steps f d ids (working st) (working st')
  ∧ forallb SQLite.fits (unflushed st) = true.
Proof.
  revert st. induction ids as [|s ids IH]; intros st E Hu.
  - inversion E; subst. split; [constructor|done].
  - rewrite for_each_cons in E. destruct (py_int s) as [sid|] eqn:Es.
    + rewrite (save_one_eq _ _ _ sid) in E by done.
      destruct (parsed_score f sid) as [|sc] eqn:E1; [by inversion E|].
      destruct (parsed_rank f sid) as [|rk] eqn:E2; [by inversion E|].
      destruct (forallb _ (unflushed st)) eqn:Ef; [|by inversion E].
      destruct (SQLite.fits sid) eqn:Es'; [|by inversion E].
      apply IH in E as [S Hb]; [|done]. cbn in S, Hb. split; [|done].
      econstructor; [done..| |done].
      intros m. by eapply edit_binds_rank.
    + rewrite save_one_raises_int in E by done. by inversion E.
Qed.

Lemma steps_returns f d ids st w' :
  steps f d ids (working st) w' →
  forallb SQLite.fits (unflushed st) = true →
  ∃ u, for_each ids (save_one f d) st = (DB (committed st) w' u, inr ())
       ∧ forallb SQLite.fits u = true.
Proof.
  intros S. remember (working st) as w eqn:Ew. revert st Ew.
  induction S as [w|s ids sid sc rk w w' Es E1 E2 Hs Hr S IH]; intros st -> Hu.
  - exists (unflushed st). by destruct st.
  - rewrite for_each_cons, (save_one_eq _ _ _ sid), E1, E2, Hu, Hs by done.
    apply (IH (DB (committed st) _ _)); [done|]. by apply edit_binds_fit.
Qed.

Lemma parse_score_raises v e :
  parse_score v = inl e → ∃ s, e = ValueError to_float s ∧ py_float s = None ∧ v = Some s.
Proof.
  destruct v as [[|c s]|]; cbn; try done. unfold float_.
  destruct (py_float (c :: s)) eqn:E; [done|]. intros [= <-]. eauto.
Qed.

Lemma parse_rank_raises v e :
  parse_rank v = inl e → ∃ s, e = ValueError to_int s ∧ py_int s = None ∧ v = Some s.
Proof.
  destruct v as [[|c s]|]; cbn; try done. unfold int_.
  destruct (py_int (c :: s)) eqn:E; [done|]. intros [= <-]. eauto.
Qed.

Lemma parsed_rank_Some f sid m :
  parsed_rank f sid = inr (Some m) →
  ∃ v, form_get f (field_key "rank" sid) = Some v ∧ v ≠ [] ∧ py_int v = Some m.
Proof.
  unfold parsed_rank, parse_rank, int_.
  destruct (form_get _ _) as [[|c v]|]; [done| |done].
  destruct (py_int (c :: v)) eqn:E; [|done]. intros [= ->]. eauto.
Qed.

Lemma edit_binds_bound f d s sid sc rk n w :
  s ∈ submitted_ids f → py_int s = Some sid → parsed_rank f sid = inr rk →
  Forall (binds f) (edit_binds d sid sc rk n w).
Proof.
  intros Hin Hs Hr. apply Forall_forall. intros k Hk.
  assert (k = sid ∨ rk = Some k) as [-> | ->].
  { unfold edit_binds in Hk.
    assert (k ∈ match query_first d sid w with Some _ => [] | None => [sid] end
                ++ option_list rk) as [Hk'|Hk']%elem_of_app.
    { destruct sc, rk, n; try done. by apply elem_of_nil in Hk. }
    - destruct (query_first d sid w); [by apply elem_of_nil in Hk'|].
      apply list_elem_of_singleton in Hk'. by left.
    - destruct rk as [m|]; [|by apply elem_of_nil in Hk'].
      apply list_elem_of_singleton in Hk'. right. by subst. }
  - exists s, sid. split_and!; [done..|by left].
  - apply parsed_rank_Some in Hr as (v&?&?&?).
    exists s, sid. split_and!; [done..|]. right. by exists v.
Qed.

(** The integers that wait to be bound are integers of the request, and
    an exception tells of the request. *)
Lemma for_each_explains f d ids st st' r :
  (∀ s, s ∈ ids → s ∈ submitted_ids f) →
  Forall (binds f) (unflushed st) →
  for_each ids (save_one f d) st = (st', r) →
  Forall (binds f) (unflushed st')
  ∧ match r with inl e => explains f e | inr _ => True end.
Proof.
  revert st. induction ids as [|s ids IH]; intros st Hids Hu E.
  - by inversion E; subst.
  - rewrite for_each_cons in E.
    assert (∀ s, s ∈ ids → s ∈ submitted_ids f) as Hids'
      by (intros; apply Hids; by right).
    assert (s ∈ submitted_ids f) as Hin by (apply Hids; by left).
    destruct (py_int s) as [sid|] eqn:Es.
    + rewrite (save_one_eq _ _ _ sid) in E by done.
      destruct (parsed_score f sid) as [e1|sc] eqn:E1.
      { inversion E; subst. split; [done|].
        by apply parse_score_raises in E1 as (s1&->&?&?). }
      destruct (parsed_rank f sid) as [e1|rk] eqn:E2.
      { inversion E; subst. split; [done|].
        by apply parse_rank_raises in E2 as (s1&->&?&?). }
      destruct (forallb _ (unflushed st)) eqn:Ef.
      * destruct (SQLite.fits sid) eqn:Es'.
        -- eapply IH; [done| |done]. cbn. by eapply edit_binds_bound.
        -- inversion E; subst. split; [constructor|].
           exists sid. split; [|done]. exists s, sid. split_and!; [done..|by left].
      * inversion E; subst. split; [done|].
        apply forallb_false_elem in Ef as (n&Hn&?). exists n. split; [|done].
        rewrite Forall_forall in Hu. by apply Hu.
    + rewrite save_one_raises_int in E by done. inversion E; subst. done.
Qed.

Lemma invalid_not_parsed f sid :
  invalid_score f sid ∨ invalid_rank f sid →
  ¬ ∃ sc rk, parsed_score f sid = inr sc ∧ parsed_rank f sid = inr rk.
Proof.
  intros [(s&E&Hs&Hf)|(s&E&Hs&Hf)] (sc&rk&E1&E2).
  - unfold parsed_score in E1. rewrite E in E1. destruct s; [done|].
    cbn in E1. unfold float_ in E1. by rewrite Hf in E1.
  - unfold parsed_rank in E2. rewrite E in E2. destruct s; [done|].
    cbn in E2. unfold int_ in E2. by rewrite Hf in E2.
Qed.

Lemma steps_listed_parsed f d ids w w' s sid :
  steps f d ids w w' → s ∈ ids → py_int s = Some sid →
  ∃ sc rk, parsed_score f sid = inr sc ∧ parsed_rank f sid = inr rk
           ∧ SQLite.fits sid = true ∧ (∀ m, rk = Some m → SQLite.fits m = true).
Proof.
  induction 1 as [|s0 ids sid0 sc rk w w' Es E1 E2 Hs0 Hr0 S IH]; intros Hin Hs.
  - by apply elem_of_nil in Hin.
  - apply elem_of_cons in Hin as [->|Hin]; [|by apply IH].
    assert (sid0 = sid) as -> by congruence. eauto 10.
Qed.

(** The view, after the date: the loop, then the commit. *)
Lemma save_scores_eq f st :
  save_scores f st =
    match str_to_date (form_get f (lit "the_date")) with
    | inl e => (st, inl e)
    | inr d =>
        match for_each (submitted_ids f) (save_one f d) st with
        | (st1, inl e) => (st1, inl e)
        | (st1, inr _) =>
            if forallb SQLite.fits (unflushed st1)
            then (DB (working st1) (working st1) [], inr d)
            else (st1, inl IntTooLarge)
        end
    end.
Proof.
  unfold save_scores, lift, submitted_ids, mbind, handler_bind,
    Session.commit, Session.flush.
  destruct (str_to_date _) as [e|d]; [reflexivity|].
  destruct (for_each _ _ _) as [st1 [e|[]]]; [reflexivity|].
  by destruct (forallb _ _).
Qed.

(** What a request to [save_scores] does to the table. *)
Lemma serve_save_scores f t :
  match str_to_date (form_get f (lit "the_date")) with
  | inl e => serve (save_scores f) t = (t, inl e)
  | inr d =>
      (∃ t', steps f d (submitted_ids f) t t'
             ∧ serve (save_scores f) t = (t', inr d))
      ∨ (∃ e, explains f e ∧ serve (save_scores f) t = (t, inl e))
  end.
Proof.
  unfold serve. rewrite save_scores_eq.
  destruct (str_to_date _) as [e|d]; [reflexivity|].
  destruct (for_each _ _ _) as [st [e|[]]] eqn:E.
  - right. pose proof (for_each_committed _ _ _ _ _ _ E) as Hc.
    apply for_each_explains in E as [_ He]; [|done|constructor].
    exists e. split; [done|]. cbn in *. by rewrite Hc.
  - pose proof (for_each_committed _ _ _ _ _ _ E) as Hc.
    destruct (forallb SQLite.fits (unflushed st)) eqn:Ef.
    + left. apply for_each_returns in E as [S _]; [|done]. cbn in *. eauto.
    + right. apply for_each_explains in E as [Hu _]; [|done|constructor].
      apply forallb_false_elem in Ef as (n&Hn&?).
      rewrite Forall_forall in Hu. exists IntTooLarge. split.
      * exists n. split; [by apply Hu|done].
      * cbn in *. by rewrite Hc.
Qed.

(** ** Tables *)

Lemma same_key_true d sid r : same_key d sid r = true ↔ key_of r = (d, sid).
Proof.
  unfold same_key, key_of. rewrite bool_decide_eq_true.
  split; [by intros [-> ->]|by intros [= -> ->]].
Qed.

Lemma same_key_false d sid r : same_key d sid r = false ↔ key_of r ≠ (d, sid).
Proof. rewrite <-same_key_true. by destruct (same_key d sid r). Qed.

Lemma query_first_Some d sid w r :
  query_first d sid w = Some r → r ∈ w ∧ key_of r = (d, sid).
Proof.
  intros [Hin Hk]%find_some. by rewrite list_elem_of_In, <-same_key_true.
Qed.

Lemma query_first_None d sid w :
  query_first d sid w = None ↔ (d, sid) ∉ key_of <$> w.
Proof.
  unfold query_first. split.
  - intros E (r&Hk&Hin)%list_elem_of_fmap.
    apply list_elem_of_In in Hin.
    apply (find_none _ _ E), same_key_false in Hin. done.
  - intros Hn. induction w as [|r w IH]; [done|]. cbn.
    rewrite fmap_cons, not_elem_of_cons in Hn. destruct Hn as [Hr Hn].
    destruct (same_key d sid r) eqn:E; [|by apply IH].
    by apply same_key_true in E.
Qed.

Lemma pk_inj (w : table) x y :
  NoDup (Score.id <$> w) → x ∈ w → y ∈ w → Score.id x = Score.id y → x = y.
Proof.
  intros Hnd Hx Hy E.
  apply list_elem_of_lookup in Hx as [i Hi], Hy as [j Hj].
  assert (i = j) as ->; [|congruence].
  eapply NoDup_lookup; [done|by rewrite list_lookup_fmap, Hi|].
  by rewrite list_lookup_fmap, Hj, E.
Qed.

Lemma key_inj (w : table) x y :
  NoDup (key_of <$> w) → x ∈ w → y ∈ w → key_of x = key_of y → x = y.
Proof.
  intros Hnd Hx Hy E.
  apply list_elem_of_lookup in Hx as [i Hi], Hy as [j Hj].
  assert (i = j) as ->; [|congruence].
  eapply NoDup_lookup; [done|by rewrite list_lookup_fmap, Hi|].
  by rewrite list_lookup_fmap, Hj, E.
Qed.

Lemma foldr_max_le (i : Z) (ids : list Z) x :
  x = i ∨ x ∈ ids → x ≤ foldr Z.max i ids.
Proof.
  induction ids as [|j ids IH]; cbn.
  - intros [->|Hin]; [lia|by apply elem_of_nil in Hin].
  - rewrite elem_of_cons. intros [->|[->|Hin]]; [|lia|].
    + etrans; [apply IH; eauto|lia].
    + etrans; [apply IH; eauto|lia].
Qed.

Lemma next_id_fresh (w : table) x : x ∈ w → Score.id x < next_id w.
Proof.
  intros Hin. apply (list_elem_of_fmap_2 Score.id) in Hin.
  unfold next_id. destruct (Score.id <$> w) as [|i ids]; [by apply elem_of_nil in Hin|].
  apply elem_of_cons, foldr_max_le in Hin. lia.
Qed.

Lemma set_row_id i s r n row : Score.id (set_row i s r n row) = Score.id row.
Proof. unfold set_row. by case_bool_decide. Qed.

Lemma set_row_key i s r n row : key_of (set_row i s r n row) = key_of row.
Proof. unfold set_row. by case_bool_decide. Qed.

Lemma set_row_ids i s r n (w : table) :
  Score.id <$> (set_row i s r n <$> w) = Score.id <$> w.
Proof.
  rewrite <-list_fmap_compose. apply list_fmap_ext. intros ? x _. apply set_row_id.
Qed.

Lemma set_row_keys i s r n (w : table) :
  key_of <$> (set_row i s r n <$> w) = key_of <$> w.
Proof.
  rewrite <-list_fmap_compose. apply list_fmap_ext. intros ? x _. apply set_row_key.
Qed.

Lemma set_row_other i s r n (w : table) :
  (∀ x, x ∈ w → Score.id x ≠ i) → set_row i s r n <$> w = w.
Proof.
  intros Hne. induction w as [|x w IH]; [done|]. cbn. f_equal.
  - unfold set_row. rewrite bool_decide_eq_false_2; [done|]. apply Hne. by left.
  - apply IH. intros y Hy. apply Hne. by right.
Qed.

Lemma fmap_filter_NoDup {A B} (g : A → B) (P : A → Prop) `{!∀ x, Decision (P x)}
    (l : list A) :
  NoDup (g <$> l) → NoDup (g <$> filter P l).
Proof. intros Hnd. eapply sublist_NoDup; [exact Hnd|]. apply (fmap_sublist g), sublist_filter. Qed.

(** ** One edit *)

Lemma edit_cases {A B C} (s : option A) (r : option B) (n : option C) :
  (s = None ∧ r = None ∧ n = None) ∨ (s, r, n) ≠ (None, None, None).
Proof. destruct s, r, n; (by left) || by right. Qed.

Lemma apply_edit_unset d sid w :
  apply_edit d sid None None None w =
    match query_first d sid w with
    | Some row => filter (λ x, Score.id x ≠ Score.id row) w
    | None => w
    end.
Proof. reflexivity. Qed.

Lemma apply_edit_set d sid s r n w :
  (s, r, n) ≠ (None, None, None) →
  apply_edit d sid s r n w =
    match query_first d sid w with
    | Some row => set_row (Score.id row) (kept s) r n <$> w
    | None =>
        w ++ [Score.mk (next_id w) d sid (kept s) r n]
    end.
Proof.
  intros Hne. assert (apply_edit d sid s r n w =
    match query_first d sid w with
    | Some row => set_row (Score.id row) (kept s) r n <$> w
    | None => set_row (next_id w) (kept s) r n <$>
                (w ++ [Score.mk (next_id w) d sid None None None])
    end) as -> by (by destruct s, r, n).
  destruct (query_first d sid w); [done|].
  rewrite fmap_app, set_row_other.
  - cbn. unfold set_row. cbn. by rewrite bool_decide_eq_true_2.
  - intros x Hx%next_id_fresh. lia.
Qed.

Lemma apply_edit_ok d sid s r n w :
  table_ok w → table_ok (apply_edit d sid s r n w).
Proof.
  intros [Hpk Hkey].
  destruct (edit_cases s r n) as [(->&->&->)|Hne].
  - rewrite apply_edit_unset. destruct (query_first d sid w); [|done].
    split; by apply fmap_filter_NoDup.
  - rewrite apply_edit_set by done.
    destruct (query_first d sid w) as [row|] eqn:E.
    + split; by rewrite ?set_row_ids, ?set_row_keys.
    + split; rewrite fmap_app; cbn; apply NoDup_app; (split; [done|]).
      * split; [|apply NoDup_singleton].
        intros i (x&->&Hx%next_id_fresh)%list_elem_of_fmap Hi%list_elem_of_singleton.
        lia.
      * split; [|apply NoDup_singleton].
        intros k Hk ->%list_elem_of_singleton.
        by apply query_first_None in E.
Qed.

Lemma find_fmap {A B} (p : B → bool) (g : A → B) (l : list A) :
  find p (g <$> l) = g <$> find (p ∘ g) l.
Proof.
  induction l as [|x l IH]; [done|]. cbn. by destruct (p (g x)).
Qed.

Lemma find_ext {A} (p q : A → bool) (l : list A) :
  (∀ x, p x = q x) → find p l = find q l.
Proof. intros E. induction l as [|x l IH]; [done|]. cbn. by rewrite E, IH. Qed.

Lemma find_app {A} (p : A → bool) (l k : list A) :
  find p (l ++ k) = match find p l with Some x => Some x | None => find p k end.
Proof. induction l as [|x l IH]; [done|]. cbn. by destruct (p x). Qed.

(** After an edit that sets a field, the row of the key holds the edit. *)
Lemma apply_edit_lookup d sid s r n w :
  (s, r, n) ≠ (None, None, None) →
  ∃ i, query_first d sid (apply_edit d sid s r n w)
       = Some (Score.mk i d sid (kept s) r n).
Proof.
  intros Hne. rewrite apply_edit_set by done. unfold query_first.
  destruct (find (same_key d sid) w) as [row|] eqn:E.
  - exists (Score.id row). rewrite find_fmap.
    erewrite find_ext, E.
    + apply query_first_Some in E as [_ [= Hd Hs]]. cbn. unfold set_row.
      by rewrite bool_decide_eq_true_2, Hd, Hs.
    + intros x. cbn. unfold same_key.
      pose proof (set_row_key (Score.id row) (kept s) r n x) as [= -> ->]. done.
  - exists (next_id w). rewrite find_app, E. cbn.
    unfold same_key. cbn. by rewrite bool_decide_eq_true_2.
Qed.

(** After an edit that sets no field, the key has no row. *)
Lemma apply_edit_lookup_unset d sid w :
  NoDup (key_of <$> w) →
  query_first d sid (apply_edit d sid None None None w) = None.
Proof.
  intros Hnd. rewrite apply_edit_unset.
  destruct (query_first d sid w) as [row|] eqn:E; [|done].
  apply query_first_Some in E as [Hin Hk].
  apply query_first_None.
  intros (x&Hx&[Hne Hxin]%list_elem_of_filter)%list_elem_of_fmap.
  apply Hne. f_equal. apply (key_inj w); congruence.
Qed.

Lemma filter_set_row (P : Score.t → Prop) `{!∀ x, Decision (P x)} i s r n
    (w : table) :
  (∀ x, P (set_row i s r n x) ↔ P x) →
  (∀ x, x ∈ w → Score.id x = i → ¬ P x) →
  filter P (set_row i s r n <$> w) = filter P w.
Proof.
  intros HP Hi. induction w as [|x w IH]; [done|].
  rewrite fmap_cons, !filter_cons.
  rewrite IH by (intros y Hy; apply Hi; by right).
  pose proof (HP x) as HPx.
  destruct (decide (P (set_row i s r n x))) as [Hp|Hp];
    destruct (decide (P x)) as [Hq|Hq]; [|tauto|tauto|done].
  f_equal. unfold set_row. case_bool_decide as Hx; [|done].
  exfalso. eapply Hi; [by left|done..].
Qed.

Lemma filter_iff_in {A} (P Q : A → Prop) `{!∀ x, Decision (P x)}
    `{!∀ x, Decision (Q x)} (l : list A) :
  (∀ x, x ∈ l → P x ↔ Q x) → filter P l = filter Q l.
Proof.
  intros E. induction l as [|x l IH]; [done|].
  rewrite !filter_cons, IH by (intros y Hy; apply E; by right).
  pose proof (E x (list_elem_of_here x l)).
  destruct (decide (P x)), (decide (Q x)); tauto || done.
Qed.

(** An edit leaves the rows of the other keys as they are. *)
Lemma apply_edit_others d sid s r n w :
  NoDup (Score.id <$> w) →
  filter (λ x, key_of x ≠ (d, sid)) (apply_edit d sid s r n w)
  = filter (λ x, key_of x ≠ (d, sid)) w.
Proof.
  intros Hnd.
  destruct (edit_cases s r n) as [(->&->&->)|Hne].
  - rewrite apply_edit_unset.
    destruct (query_first d sid w) as [row|] eqn:E; [|done].
    apply query_first_Some in E as [Hin Hk].
    rewrite list_filter_filter. apply filter_iff_in.
    intros x Hxin. split; [by intros [? _]|]. intros Hx. split; [done|].
    intros Hid. apply Hx. by rewrite <-Hk, (pk_inj w x row).
  - rewrite apply_edit_set by done.
    destruct (query_first d sid w) as [row|] eqn:E.
    + apply query_first_Some in E as [Hin Hk].
      apply filter_set_row.
      * intros x. by rewrite set_row_key.
      * intros x Hx Hid Hkx. apply Hkx. by rewrite (pk_inj w x row).
    + rewrite filter_app, filter_cons_False, filter_nil, app_nil_r; [done|].
      cbn. by intros ?.
Qed.

Lemma apply_edit_filter (P : Score.t → Prop) `{!∀ x, Decision (P x)}
    d sid s r n w :
  NoDup (Score.id <$> w) →
  (∀ x, P x → key_of x ≠ (d, sid)) →
  filter P (apply_edit d sid s r n w) = filter P w.
Proof.
  intros Hnd HP.
  assert (∀ l : table, filter P l = filter P (filter (λ x, key_of x ≠ (d, sid)) l))
    as E.
  { intros l. rewrite list_filter_filter. apply list_filter_iff.
    intros x. split; [intros Hx; split; [done|by apply HP]|by intros [? _]]. }
  by rewrite E, apply_edit_others, <-E.
Qed.

Lemma query_first_filter d sid (w : table) :
  query_first d sid w = head (filter (λ x, key_of x = (d, sid)) w).
Proof.
  induction w as [|x w IH]; [done|]. rewrite filter_cons.
  unfold query_first in *. cbn [find].
  destruct (same_key d sid x) eqn:E.
  - apply same_key_true in E. by rewrite decide_True.
  - apply same_key_false in E. by rewrite decide_False.
Qed.

Lemma apply_edit_other_key d sid s r n w d' sid' :
  NoDup (Score.id <$> w) → (d', sid') ≠ (d, sid) →
  query_first d' sid' (apply_edit d sid s r n w) = query_first d' sid' w.
Proof.
  intros Hnd Hne. rewrite !query_first_filter.
  rewrite apply_edit_filter; [done..|]. congruence.
Qed.

(** ** The loop *)

Lemma steps_ok f d ids w w' : steps f d ids w w' → table_ok w → table_ok w'.
Proof. induction 1; [done|]. intros. by apply IHsteps, apply_edit_ok. Qed.

Lemma apply_edit_holds d sid s r n w :
  table_ok w → holds_edit d sid s r n (apply_edit d sid s r n w).
Proof.
  intros [_ Hk]. unfold holds_edit.
  destruct (edit_cases s r n) as [(->&->&->)|Hne].
  - by rewrite apply_edit_lookup_unset.
  - destruct (apply_edit_lookup d sid s r n w Hne) as [i ->]. done.
Qed.

Lemma steps_holds_keep f d ids w w' sid sc rk :
  steps f d ids w w' → table_ok w →
  parsed_score f sid = inr sc → parsed_rank f sid = inr rk →
  holds_edit d sid sc rk (parsed_note f sid) w →
  holds_edit d sid sc rk (parsed_note f sid) w'.
Proof.
  induction 1 as [|s0 ids sid0 sc0 rk0 w w' Es E1 E2 Hs0 Hr0 S IH]; [done|].
  intros Hok P1 P2 Hw. apply IH; [by apply apply_edit_ok|done..|].
  destruct (decide (sid0 = sid)) as [->|Hne].
  - assert (sc0 = sc) as -> by congruence.
    assert (rk0 = rk) as -> by congruence.
    by apply apply_edit_holds.
  - unfold holds_edit. rewrite apply_edit_other_key; [done|apply Hok|congruence].
Qed.

Lemma steps_holds f d ids w w' s sid :
  steps f d ids w w' → table_ok w → s ∈ ids → py_int s = Some sid →
  ∃ sc rk, parsed_score f sid = inr sc ∧ parsed_rank f sid = inr rk
           ∧ holds_edit d sid sc rk (parsed_note f sid) w'.
Proof.
  induction 1 as [|s0 ids sid0 sc0 rk0 w w' Es E1 E2 Hs0 Hr0 S IH]; intros Hok Hin Hs.
  - by apply elem_of_nil in Hin.
  - apply elem_of_cons in Hin as [->|Hin].
    + assert (sid0 = sid) as -> by congruence.
      exists sc0, rk0. split_and!; [done..|].
      eapply steps_holds_keep; [done|by apply apply_edit_ok|done..|].
      by apply apply_edit_holds.
    + apply IH; [by apply apply_edit_ok|done..].
Qed.

Lemma steps_unlisted (P : Score.t → Prop) `{!∀ x, Decision (P x)} f d ids w w' :
  steps f d ids w w' → table_ok w →
  (∀ s sid x, s ∈ ids → py_int s = Some sid → P x → key_of x ≠ (d, sid)) →
  filter P w' = filter P w.
Proof.
  induction 1 as [|s0 ids sid0 sc0 rk0 w w' Es E1 E2 Hs0 Hr0 S IH]; [done|].
  intros Hok HP. rewrite IH.
  - apply apply_edit_filter; [apply Hok|]. intros x. eapply HP; [by left|done].
  - by apply apply_edit_ok.
  - intros s sid x Hin. apply HP. by right.
Qed.

Lemma apply_edit_rank d sid s r n w x m :
  x ∈ apply_edit d sid s r n w → Score.rank x = Some m →
  (∃ y, y ∈ w ∧ Score.rank y = Some m) ∨ r = Some m.
Proof.
  destruct (edit_cases s r n) as [(->&->&->)|Hne].
  - rewrite apply_edit_unset. destruct (query_first d sid w).
    + intros [_ Hx]%list_elem_of_filter; eauto.
    + eauto.
  - rewrite apply_edit_set by done. destruct (query_first d sid w) as [row|].
    + intros (y&->&Hy)%list_elem_of_fmap. unfold set_row.
      case_bool_decide; cbn; eauto.
    + intros [Hx|Hx%list_elem_of_singleton]%elem_of_app; subst; cbn; eauto.
Qed.

Lemma steps_rank f d ids w w' x m :
  steps f d ids w w' → x ∈ w' → Score.rank x = Some m →
  (∃ y, y ∈ w ∧ Score.rank y = Some m)
  ∨ (∃ s sid v, s ∈ ids ∧ py_int s = Some sid
       ∧ form_get f (field_key "rank" sid) = Some v ∧ py_int v = Some m).
Proof.
  induction 1 as [|s0 ids sid0 sc0 rk0 w w' Es E1 E2 Hs0 Hr0 S IH]; [eauto|].
  intros Hx Hm. destruct (IH Hx Hm) as [(y&Hy&Hym)|(s&sid&v&Hin&?)].
  - destruct (apply_edit_rank _ _ _ _ _ _ _ _ Hy Hym) as [?|Hr]; [eauto|].
    subst rk0. apply parsed_rank_Some in E2 as (v&?&?&?).
    right. exists s0, sid0, v. split_and!; [by left|done..].
  - right. exists s, sid, v. split; [by right|done].
Qed.

(** ** Requests *)

Lemma str_to_date_raises v e :
  str_to_date v = inl e → ∃ s, e = ValueError to_date s ∧ strptime_ymd s = None.
Proof.
  destruct v as [[|c s]|]; cbn; try done.
  destruct (strptime_ymd (c :: s)) eqn:E; [done|]. intros [= <-]. eauto.
Qed.

(** A request that raises leaves the table as it was. *)
Lemma serve_save_scores_raises f t t' e :
  serve (save_scores f) t = (t', inl e) → t' = t ∧ explains f e.
Proof.
  pose proof (serve_save_scores f t) as Hs.
  destruct (str_to_date _) as [e0|d] eqn:Ed.
  - rewrite Hs. intros [= <- <-]. split; [done|].
    by apply str_to_date_raises in Ed as (s&->&?).
  - destruct Hs as [(t1&_&->)|(e1&?&->)]; [done|].
    by intros [= <- <-].
Qed.

(** A request that returns has run every iteration of the loop. *)
Lemma serve_save_scores_returns f t t' d :
  serve (save_scores f) t = (t', inr d) →
  str_to_date (form_get f (lit "the_date")) = inr d
  ∧ steps f d (submitted_ids f) t t'.
Proof.
  pose proof (serve_save_scores f t) as Hs.
  destruct (str_to_date _) as [e0|d0] eqn:Ed.
  - by rewrite Hs.
  - destruct Hs as [(t1&?&->)|(e1&?&->)]; [|done].
    by intros [= <- <-].
Qed.

Lemma serve_save_scores_table f t :
  (serve (save_scores f) t).1 = t
  ∨ ∃ d, steps f d (submitted_ids f) t (serve (save_scores f) t).1.
Proof.
  destruct (serve (save_scores f) t) as [t' [e|d]] eqn:E.
  - left. by apply serve_save_scores_raises in E as [-> _].
  - right. exists d. by apply serve_save_scores_returns in E as [_ ?].
Qed.

Lemma lstrip_spaces s : Forall (λ c, Py.isspace c = true) s → Py.lstrip s = [].
Proof. induction 1 as [|c s Hc _ IH]; [done|]. cbn [Py.lstrip]. by rewrite Hc. Qed.

Lemma strip_spaces s : Forall (λ c, Py.isspace c = true) s → Py.strip s = [].
Proof. intros Hs. unfold Py.strip, Py.rstrip. rewrite (lstrip_spaces s) by done. reflexivity. Qed.


(** ** What the handler parses, and what was submitted *)

(** A REAL column keeps a number that is neither a NaN nor a zero as it
    is, and a NaN not at all. *)
Lemma real_of_number x :
  (is_nan x = true → SQLite.real x = None)
  ∧ (is_nan x = false →
     SQLite.real x = Some (if (x =? 0)%float then 0%float else x)).
Proof.
  unfold SQLite.real. split; intros ->; [done|]. by destruct (x =? 0)%float.
Qed.

Lemma parse_spec_number {A} (conv : pystr → option A) (raise : pystr → exn)
    (v : option pystr) (x : option A) :
  match v with
  | None | Some [] => inr None
  | Some s =>
      match match conv s with Some y => inr y | None => inl (raise s) end with
      | inr y => inr (Some y)
      | inl e => inl e
      end
  end = inr x
  ↔ spec_number conv v x.
Proof.
  unfold spec_number. destruct v as [[|c s]|].
  - split; [by intros [= <-]|by intros ->].
  - destruct (conv (c :: s)) as [y|].
    + split; [intros [= <-]; eauto|by intros [_ <-]].
    + split; [done|]. by intros [[y ->] ?].
  - split; [by intros [= <-]|by intros ->].
Qed.

Lemma parsed_score_spec f sid sc :
  parsed_score f sid = inr sc
  ↔ spec_number py_float (form_get f (field_key "score" sid)) sc.
Proof. apply (parse_spec_number py_float (ValueError to_float)). Qed.

Lemma parsed_rank_spec f sid rk :
  parsed_rank f sid = inr rk
  ↔ spec_number py_int (form_get f (field_key "rank" sid)) rk.
Proof. apply (parse_spec_number py_int (ValueError to_int)). Qed.

Lemma parsed_note_spec f sid :
  parsed_note f sid = spec_note (form_get f (field_key "note" sid)).
Proof.
  unfold parsed_note, parse_note, spec_note.
  destruct (form_get _ _) as [v|]; cbn [default from_option id]; [|done].
  destruct (decide (Py.strip v = [])) as [->|Hne]; [done|].
  by destruct (Py.strip v).
Qed.

(** After a request that returns, the table holds the edit of every
    listed subject, in the words of the submission. *)
Lemma served_holds f t t' d s sid :
  table_ok t →
  serve (save_scores f) t = (t', inr d) →
  s ∈ submitted_ids f → py_int s = Some sid →
  ∃ sc rk,
    spec_number py_float (form_get f (field_key "score" sid)) sc
    ∧ spec_number py_int (form_get f (field_key "rank" sid)) rk
    ∧ (∀ m, rk = Some m → SQLite.fits m = true)
    ∧ holds_edit d sid sc rk (spec_note (form_get f (field_key "note" sid))) t'.
Proof.
  intros Hok [_ S]%serve_save_scores_returns Hin Hs.
  destruct (steps_holds _ _ _ _ _ _ _ S Hok Hin Hs) as (sc&rk&E1&E2&Hh).
  destruct (steps_listed_parsed _ _ _ _ _ _ _ S Hin Hs) as (sc'&rk'&E1'&E2'&_&Hr).
  assert (rk' = rk) as -> by congruence.
  exists sc, rk. rewrite <-parsed_note_spec.
  by rewrite <-parsed_score_spec, <-parsed_rank_spec.
Qed.

Lemma spec_number_inj {A} (conv : pystr → option A) v (x y : option A) :
  spec_number conv v x → spec_number conv v y → x = y.
Proof.
  unfold spec_number. destruct v as [[|c s]|]; [congruence| |congruence].
  intros [_ <-] [_ <-]. done.
Qed.

(** ** The claims on the ledger *)

(** C1.  If a listed subject has a score or a rank that is a
    non-empty string the conversion refuses, the request raises, and the
    table is what it was before the request.  The exception is a
    [ValueError] that names the conversion and the refused string (not the
    subject), unless an integer of the request that SQLite does not have
    was bound before the refused string was reached: the exception is
    then the [OverflowError] of that integer. *)
Theorem C1_invalid_number_rejects_batch f t s sid :
  s ∈ submitted_ids f → py_int s = Some sid →
  invalid_score f sid ∨ invalid_rank f sid →
  ∃ e,
    serve (save_scores f) t = (t, inl e)
    ∧ match e with
      | ValueError what literal => rejected what literal
      | IntTooLarge => ∃ n, binds f n ∧ SQLite.fits n = false
      end.
Proof.
  intros Hin Hs Hbad.
  destruct (serve (save_scores f) t) as [t' [e|d]] eqn:E.
  - apply serve_save_scores_raises in E as (->&He). exists e. split; [done|].
    by destruct e.
  - apply serve_save_scores_returns in E as [_ S].
    destruct (invalid_not_parsed f sid Hbad).
    destruct (steps_listed_parsed _ _ _ _ _ _ _ S Hin Hs) as (sc&rk&?&?&_).
    eauto.
Qed.

(** C2.  A subject that [score_subject_ids] does not list is
    skipped: the request leaves every row of that subject as it is. *)
Theorem C2_unlisted_subject_untouched f t sid :
  table_ok t → ¬ listed f sid →
  filter (λ r, Score.subject_id r = sid) (serve (save_scores f) t).1
  = filter (λ r, Score.subject_id r = sid) t.
Proof.
  intros Hok Hn.
  destruct (serve_save_scores_table f t) as [->|[d S]]; [done|].
  eapply steps_unlisted; [done..|].
  intros s sid' x Hin Hs Hx [= _ Hk]. apply Hn. exists s. split; [done|].
  congruence.
Qed.

(** C3.  After a request that returns, a listed subject with a score, a
    rank or a note has a row for the day, whatever the row held before:
    its rank is the integer submitted, its note the submitted note without
    the spaces around it, and its score what a REAL column keeps of the
    number submitted (the number itself, zero for negative zero, nothing
    for a NaN); a field submitted empty or not at all is unset.  A
    subject with none of the three has no row, and a note of spaces only
    is no note. *)
Theorem C3_record_holds_parsed_values f t t' d s sid :
  table_ok t →
  serve (save_scores f) t = (t', inr d) →
  s ∈ submitted_ids f → py_int s = Some sid →
  let note := spec_note (form_get f (field_key "note" sid)) in
  ∃ sc rk,
    spec_number py_float (form_get f (field_key "score" sid)) sc
    ∧ spec_number py_int (form_get f (field_key "rank" sid)) rk
    ∧ match query_first d sid t' with
      | Some row =>
          (sc, rk, note) ≠ (None, None, None)
          ∧ Score.score row = sc ≫= SQLite.real
          ∧ Score.rank row = rk
          ∧ Score.note row = note
      | None => sc = None ∧ rk = None ∧ note = None
      end
    ∧ (∀ v, form_get f (field_key "note" sid) = Some v →
            Forall (λ c, Py.isspace c = true) v → note = None).
Proof.
  intros Hok E Hin Hs note.
  destruct (served_holds _ _ _ _ _ _ Hok E Hin Hs) as (sc&rk&E1&E2&_&Hh).
  exists sc, rk. split_and!; [done|done|exact Hh|].
  intros v Ev Hv. unfold note, spec_note. rewrite Ev.
  by rewrite decide_True by by apply strip_spaces.
Qed.

Lemma set_row_fixes (w : table) row :
  NoDup (Score.id <$> w) → row ∈ w →
  set_row (Score.id row) (Score.score row) (Score.rank row) (Score.note row) <$> w
  = w.
Proof.
  intros Hnd Hin. rewrite <-(list_fmap_id w) at 2.
  apply list_fmap_ext. intros _ x Hx%list_elem_of_lookup_2.
  unfold set_row. case_bool_decide as Hid; [|done].
  rewrite (pk_inj w x row) by done. by destruct row.
Qed.

(** An edit the table already holds changes nothing. *)
Lemma apply_edit_again d sid s r n w :
  table_ok w → holds_edit d sid s r n w → apply_edit d sid s r n w = w.
Proof.
  intros [Hpk _] Hh. unfold holds_edit in Hh.
  destruct (query_first d sid w) as [row|] eqn:E.
  - destruct Hh as (Hne&Hs&Hr&Hn). rewrite apply_edit_set, E by done.
    rewrite <-Hs, <-Hr, <-Hn.
    apply query_first_Some in E as [Hin _]. by apply set_row_fixes.
  - destruct Hh as (->&->&->). by rewrite apply_edit_unset, E.
Qed.

Lemma steps_again f d ids w w' w1 :
  steps f d ids w w' → table_ok w1 →
  (∀ s sid sc rk, s ∈ ids → py_int s = Some sid →
     parsed_score f sid = inr sc → parsed_rank f sid = inr rk →
     holds_edit d sid sc rk (parsed_note f sid) w1) →
  steps f d ids w1 w1.
Proof.
  induction 1 as [|s0 ids sid0 sc0 rk0 w w' Es E1 E2 Hs0 Hr0 S IH]; intros Hok Hh.
  - constructor.
  - econstructor; [done..|]. rewrite apply_edit_again.
    + apply IH; [done|]. intros s sid sc rk Hin. apply Hh. by right.
    + done.
    + eapply Hh; [by left|done..].
Qed.

Lemma serve_of_steps f t t' d :
  str_to_date (form_get f (lit "the_date")) = inr d →
  steps f d (submitted_ids f) t t' →
  serve (save_scores f) t = (t', inr d).
Proof.
  intros Ed S. unfold serve. rewrite save_scores_eq, Ed.
  destruct (steps_returns f d _ (DB t t []) t' S eq_refl) as (u&->&Hu).
  cbn [unflushed]. by rewrite Hu.
Qed.

Lemma the_row_of_key d sid (w : table) row :
  NoDup (key_of <$> w) → query_first d sid w = Some row →
  filter (λ x, key_of x = (d, sid)) w = [row].
Proof.
  intros Hnd E. rewrite query_first_filter in E.
  apply (fmap_filter_NoDup key_of (λ x, key_of x = (d, sid))) in Hnd.
  destruct (filter _ w) as [|x [|y l]] eqn:Ef; [done|by inversion E|].
  assert (x ∈ filter (λ x, key_of x = (d, sid)) w) as [Hx _]%list_elem_of_filter
    by (rewrite Ef; by left).
  assert (y ∈ filter (λ x, key_of x = (d, sid)) w) as [Hy _]%list_elem_of_filter
    by (rewrite Ef; right; by left).
  rewrite !fmap_cons, Hx, Hy in Hnd. apply NoDup_cons in Hnd as [Hn _].
  destruct Hn. by left.
Qed.

(** A request that returned returns again, and changes nothing. *)
Lemma served_again f t t1 d :
  table_ok t →
  serve (save_scores f) t = (t1, inr d) →
  serve (save_scores f) t1 = (t1, inr d).
Proof.
  intros Hok [Ed S]%serve_save_scores_returns.
  apply serve_of_steps; [done|]. eapply steps_again; [done|by eapply steps_ok|].
  intros s' sid' sc' rk' Hin' Hs' E1' E2'.
  destruct (steps_holds _ _ _ _ _ _ _ S Hok Hin' Hs') as (?&?&?&?&?).
  congruence.
Qed.

(** C5.  After a request that returns, the same submission again returns
    and changes nothing; the table has one row per (date, subject) key, and
    for a listed subject with a score, a rank or a note that one row
    holds the rank and the note submitted, and what a REAL column keeps of
    the score submitted. *)
Theorem C5_resubmission_keeps_one_record f t t1 d s sid sc rk :
  table_ok t →
  serve (save_scores f) t = (t1, inr d) →
  s ∈ submitted_ids f → py_int s = Some sid →
  spec_number py_float (form_get f (field_key "score" sid)) sc →
  spec_number py_int (form_get f (field_key "rank" sid)) rk →
  let note := spec_note (form_get f (field_key "note" sid)) in
  (sc, rk, note) ≠ (None, None, None) →
  serve (save_scores f) t1 = (t1, inr d)
  ∧ NoDup (key_of <$> t1)
  ∧ ∃ row, filter (λ x, key_of x = (d, sid)) t1 = [row]
           ∧ Score.score row = sc ≫= SQLite.real
           ∧ Score.rank row = rk
           ∧ Score.note row = note.
Proof.
  intros Hok E Hin Hs E1 E2 note Hne.
  pose proof (proj2 (serve_save_scores_returns _ _ _ _ E)) as S.
  pose proof (steps_ok _ _ _ _ _ S Hok) as Hok1.
  split_and!.
  - exact (served_again _ _ _ _ Hok E).
  - apply Hok1.
  - destruct (served_holds _ _ _ _ _ _ Hok E Hin Hs) as (sc'&rk'&E1'&E2'&_&Hh).
    assert (sc' = sc) as -> by by eapply spec_number_inj.
    assert (rk' = rk) as -> by by eapply spec_number_inj.
    unfold holds_edit in Hh. fold note in Hh.
    destruct (query_first d sid t1) as [row|] eqn:Eq.
    + exists row. split; [apply the_row_of_key; [apply Hok1|done]|].
      by destruct Hh as (_&?&?&?).
    + destruct Hh as (->&->&E3). destruct Hne. by rewrite E3.
Qed.

(** C6.  A rank in the table after a request was in the table before
    it, or is the integer [int] returned for the rank string submitted for
    a listed subject.  No sign is checked: after a request that returns,
    the row of a listed subject with a rank string has the integer of that
    string, whatever its sign, and that integer is one SQLite has; a rank
    that SQLite does not have makes the request raise, and nothing is
    stored. *)
Theorem C6_stored_rank_is_parsed_int f t :
  (∀ x m,
     x ∈ (serve (save_scores f) t).1 → Score.rank x = Some m →
     (∃ y, y ∈ t ∧ Score.rank y = Some m)
     ∨ (∃ s sid v, s ∈ submitted_ids f ∧ py_int s = Some sid
          ∧ form_get f (field_key "rank" sid) = Some v ∧ py_int v = Some m))
  ∧ (∀ t' d s sid v,
       table_ok t → serve (save_scores f) t = (t', inr d) →
       s ∈ submitted_ids f → py_int s = Some sid →
       form_get f (field_key "rank" sid) = Some v → v ≠ [] →
       ∃ m row, py_int v = Some m ∧ SQLite.fits m = true
                ∧ query_first d sid t' = Some row ∧ Score.rank row = Some m)
  ∧ (∀ s sid v m,
       s ∈ submitted_ids f → py_int s = Some sid →
       form_get f (field_key "rank" sid) = Some v → v ≠ [] →
       py_int v = Some m → SQLite.fits m = false →
       ∃ e, serve (save_scores f) t = (t, inl e)).
Proof.
  split_and!.
  - intros x m. destruct (serve_save_scores_table f t) as [->|[d S]]; [eauto|].
    intros Hx Hm. destruct (steps_rank _ _ _ _ _ _ _ S Hx Hm)
      as [?|(s&sid&v&?&?&?&?)]; eauto 10.
  - intros t' d s sid v Hok E Hin Hs Ev Hv.
    destruct (served_holds _ _ _ _ _ _ Hok E Hin Hs) as (sc&rk&_&E2&Hr&Hh).
    unfold spec_number in E2. rewrite Ev in E2. destruct v as [|c v]; [done|].
    destruct E2 as [[m ->] E2]. unfold holds_edit in Hh.
    destruct (query_first d sid t') as [row|]; [|by destruct Hh as (_&?&_)].
    destruct Hh as (_&_&?&_). exists m, row. split_and!; [done|by apply Hr|done..].
  - intros s sid v m Hin Hs Ev Hv Em Hm.
    destruct (serve (save_scores f) t) as [t' [e|d]] eqn:E.
    + apply serve_save_scores_raises in E as [-> _]. eauto.
    + apply serve_save_scores_returns in E as [_ S].
      destruct (steps_listed_parsed _ _ _ _ _ _ _ S Hin Hs) as (sc&rk&_&E2&_&Hr).
      apply parsed_rank_spec in E2. unfold spec_number in E2.
      rewrite Ev in E2. destruct v as [|c v]; [done|].
      destruct E2 as [_ E2]. rewrite Em in E2. subst rk.
      rewrite (Hr m) in Hm; done.
Qed.

End ledger_proofs.

(** * Proofs: the report *)

Section report_proofs.
Context `{Builtins}.

(** ** Wrapping a note *)

Lemma concat_slices (s : pystr) (n c : nat) :
  concat ((λ i, slice s i (i + n)) <$> ((λ k, k * n)%nat <$> seq 0 c))
  = take (c * n) s.
Proof.
  induction c as [|c IH]; [done|].
  rewrite seq_S, !fmap_app, concat_app, IH. cbn.
  unfold slice. rewrite app_nil_r.
  replace (c * n + n - c * n)%nat with n by lia.
  rewrite take_take_drop. f_equal. lia.
Qed.

Lemma range_covers (len n : nat) :
  (0 < n)%nat → (len ≤ (len + n - 1) / n * n)%nat.
Proof.
  intros Hn. pose proof (Nat.div_mod_eq (len + n - 1) n).
  pose proof (Nat.mod_upper_bound (len + n - 1) n). nia.
Qed.

(** The chunks of a string, put together again, are the string. *)
Lemma concat_chunks (s : pystr) (n : nat) :
  (0 < n)%nat → concat (chunks s n) = s.
Proof.
  intros Hn. unfold chunks, py_range. rewrite concat_slices.
  apply take_ge, range_covers, Hn.
Qed.

Lemma chunks_bounds (s : pystr) (n : nat) :
  (0 < n)%nat → Forall (λ ln, 0 < length ln ≤ n)%nat (chunks s n).
Proof.
  intros Hn. unfold chunks, py_range. apply Forall_fmap, Forall_fmap.
  apply Forall_forall. intros k Hk%elem_of_seq. cbn. unfold slice.
  rewrite length_take, length_drop.
  assert (k * n < length s)%nat; [|lia].
  pose proof (Nat.div_mod_eq (length s + n - 1) n).
  pose proof (Nat.mod_upper_bound (length s + n - 1) n). nia.
Qed.

Lemma chunks_85 (s : pystr) :
  length s = 85%nat → length <$> chunks s 40 = [40; 40; 5]%nat.
Proof.
  intros Hl. unfold chunks, py_range. rewrite Hl. cbn. unfold slice.
  rewrite !length_take, !length_drop, Hl. done.
Qed.

(** ** Drawing *)

Lemma draw_header_eq title c :
  draw_header title c = (Canvas (pages c) (code c ++ header_ops title), header_y).
Proof.
  unfold draw_header, setFont, drawString, header_ops, header_y. cbn.
  by rewrite <-!app_assoc.
Qed.

Lemma stack_lines_eq lines c y :
  foldl (λ '(c, y) ln,
           let y := (y - (line_h - 2))%float in
           (drawString (110 * mm) y ln c, y)) (c, y) lines
  = (Canvas (pages c) (code c ++ stacked_ops y lines), stacked_y y lines).
Proof.
  revert c y. induction lines as [|ln lines IH]; intros c y.
  - cbn. rewrite app_nil_r. by destruct c.
  - cbn [foldl]. rewrite IH. cbn. by rewrite <-app_assoc.
Qed.

Lemma chunks_nonempty (s : pystr) :
  (max_chars < length s)%nat → chunks s max_chars ≠ [].
Proof.
  intros Hl E. pose proof (concat_chunks s max_chars) as Hc.
  rewrite E in Hc. cbn in Hc. rewrite <-Hc in Hl by (unfold max_chars; lia).
  cbn in Hl. lia.
Qed.

(** The note of a row is drawn on the page being drawn, line after line,
    from the cursor down. *)
Lemma draw_note_eq note c y :
  draw_note note (c, y)
  = (Canvas (pages c) (code c ++ note_ops y (note_lines note)),
     stacked_y y (drop 1 (note_lines note))).
Proof.
  unfold draw_note, note_lines.
  destruct (max_chars <? length note)%nat eqn:E.
  - apply Nat.ltb_lt, chunks_nonempty in E.
    destruct (chunks note max_chars) as [|l0 lines]; [done|].
    cbn [head default drop]. rewrite stack_lines_eq. cbn.
    by rewrite <-app_assoc.
  - done.
Qed.

Lemma draw_subject_eq title m c y subj :
  draw_subject title m (c, y) subj
  = let '(c1, y1) :=
      if (y <? 20 * mm)%float
      then (Canvas (pages c ++ [code c]) (header_ops (title ++ continued)),
            header_y)
      else (c, y) in
    (Canvas (pages c1) (code c1 ++ row_ops m y1 subj),
     (stacked_y y1 (drop 1 (note_lines (note_str (m !! Subject.id subj))))
      - line_h)%float).
Proof.
  unfold draw_subject. rewrite draw_header_eq.
  destruct (y <? 20 * mm)%float; rewrite draw_note_eq; unfold row_ops; cbn;
    by rewrite <-?app_assoc.
Qed.

Lemma drawn_app p q : drawn (p ++ q) = drawn p ++ drawn q.
Proof. apply bind_app. Qed.

Lemma drawn_header_ops title : drawn (header_ops title) = header_texts title.
Proof. reflexivity. Qed.

Lemma drawn_stacked_ops y lines :
  drawn (stacked_ops y lines) = (λ ln, (col_note, ln)) <$> lines.
Proof.
  revert y. induction lines as [|ln lines IH]; intros y; [done|].
  cbn [stacked_ops]. change (drawn (?o :: ?p)) with (drawn [o] ++ drawn p).
  by rewrite IH.
Qed.

Lemma drawn_note_ops y lines :
  drawn (note_ops y lines) = (λ ln, (col_note, ln)) <$> lines.
Proof.
  destruct lines as [|ln lines]; [done|].
  cbn [note_ops]. change (drawn (?o :: ?p)) with (drawn [o] ++ drawn p).
  by rewrite drawn_stacked_ops.
Qed.

Lemma drawn_row_ops m y subj : drawn (row_ops m y subj) = row_texts m subj.
Proof.
  unfold row_ops, row_texts. by rewrite drawn_app, drawn_note_ops.
Qed.

Lemma page_texts_snoc title m g subj :
  page_texts title m (g ++ [subj]) = page_texts title m g ++ row_texts m subj.
Proof.
  unfold page_texts. rewrite bind_app, <-app_assoc. cbn. by rewrite app_nil_r.
Qed.

Lemma render_loop title m rows : ∀ c y c' y' gs g,
  drawn <$> all_pages c
    = imap (λ i g, page_texts (page_title title i) m g) (gs ++ [g]) →
  foldl (draw_subject title m) (c, y) rows = (c', y') →
  ∃ gs' g',
    concat (gs' ++ [g']) = concat (gs ++ [g]) ++ rows
    ∧ drawn <$> all_pages c'
      = imap (λ i g, page_texts (page_title title i) m g) (gs' ++ [g']).
Proof.
  induction rows as [|subj rows IH]; intros c y c' y' gs g Hc E.
  - inversion E; subst. exists gs, g. by rewrite app_nil_r.
  - cbn [foldl] in E. rewrite draw_subject_eq in E.
    unfold all_pages in Hc. rewrite fmap_app, imap_app in Hc.
    apply app_inj_2 in Hc as [Hp Hl]; [|done].
    cbn [fmap list_fmap imap] in Hl. rewrite Nat.add_0_r in Hl.
    injection Hl as Hl.
    destruct (y <? 20 * mm)%float.
    + eapply (IH _ _ _ _ (gs ++ [g]) [subj]) in E as (gs'&g'&Hcat&Hd).
      * exists gs', g'. split; [|done]. rewrite Hcat.
        rewrite !concat_app. cbn. by rewrite !app_nil_r, <-!app_assoc.
      * unfold all_pages. cbn [pages code].
        rewrite !fmap_app, !imap_app, Hp. cbn [fmap list_fmap imap].
        rewrite Hl, !Nat.add_0_r, length_app, Nat.add_1_r.
        rewrite drawn_app, drawn_row_ops, drawn_header_ops.
        unfold page_texts. cbn. by rewrite app_nil_r.
    + eapply (IH _ _ _ _ gs (g ++ [subj])) in E as (gs'&g'&Hcat&Hd).
      * exists gs', g'. split; [|done]. rewrite Hcat.
        rewrite !concat_app. cbn. by rewrite !app_nil_r, <-!app_assoc.
      * unfold all_pages. cbn [pages code].
        rewrite !fmap_app, !imap_app, Hp. cbn [fmap list_fmap imap].
        rewrite !Nat.add_0_r, drawn_app, drawn_row_ops, Hl.
        by rewrite page_texts_snoc.
Qed.

(** The pages [render] draws: the rows in groups, one group a page. *)
Lemma render_pages title m rows :
  ∃ groups,
    concat groups = rows
    ∧ drawn <$> render title m rows
      = imap (λ i g, page_texts (page_title title i) m g) groups.
Proof.
  unfold render. rewrite draw_header_eq. cbn [pages code app].
  destruct (foldl _ _ rows) as [c' y'] eqn:E.
  eapply (render_loop _ _ _ _ _ _ _ [] []) in E as (gs&g&Hcat&Hd); [|done].
  exists (gs ++ [g]). split; [done|].
  rewrite <-Hd. unfold save, showPage, all_pages. done.
Qed.

(** ** The rows of the report *)

Lemma str_leb_total a b : str_leb a b = true ∨ str_leb b a = true.
Proof.
  revert b. induction a as [|x a IH]; intros [|y b]; cbn; auto.
  destruct (N.ltb_spec x y), (N.ltb_spec y x), (N.eqb_spec x y),
    (N.eqb_spec y x); cbn; auto; try lia.
Qed.

Lemma str_leb_trans a b c :
  str_leb a b = true → str_leb b c = true → str_leb a c = true.
Proof.
  revert b c. induction a as [|x a IH]; intros [|y b] [|z c]; cbn; try done.
  destruct (N.ltb_spec x y), (N.ltb_spec y z), (N.ltb_spec x z),
    (N.eqb_spec x y), (N.eqb_spec y z), (N.eqb_spec x z);
    cbn; try done; try lia.
  apply IH.
Qed.

#[local] Instance name_le_total : Total name_le.
Proof. intros s1 s2. apply str_leb_total. Qed.

#[local] Instance name_le_trans : Transitive name_le.
Proof. intros s1 s2 s3. apply str_leb_trans. Qed.

Lemma scores_map_of_other (l : table) (m : gmap Z Score.t) sid :
  (∀ r, r ∈ l → Score.subject_id r ≠ sid) →
  foldl (λ m s, <[Score.subject_id s := s]> m) m l !! sid = m !! sid.
Proof.
  revert m. induction l as [|r l IH]; intros m Hl; [done|].
  cbn [foldl]. rewrite IH by (intros x Hx; apply Hl; by right).
  apply lookup_insert_ne, Hl. by left.
Qed.

(** A subject with no row on day [d] has no entry in [scores_map]. *)
Lemma scores_map_no_row d t sid :
  (d, sid) ∉ key_of <$> t → scores_map_of (scores_on d t) !! sid = None.
Proof.
  intros Hn. unfold scores_map_of. rewrite scores_map_of_other; [done|].
  intros r [Hd Hr]%list_elem_of_filter Hs. apply Hn.
  apply list_elem_of_fmap. exists r. split; [|done].
  unfold key_of. by rewrite Hd, Hs.
Qed.

(** ** The claims on the report *)

(** C7.  The rows given to [render] fall into consecutive groups, one for
    each page, in order; a page draws the title line (with the suffix on
    every page after the first), the header row, and then the cells of
    the rows of its group, each row once. *)
Theorem C7_rows_once_in_order_under_header title m rows :
  ∃ groups,
    concat groups = rows
    ∧ length (render title m rows) = length groups
    ∧ drawn <$> render title m rows
      = imap (λ i g, header_texts (page_title title i)
                     ++ (g ≫= row_texts m)) groups.
Proof.
  destruct (render_pages title m rows) as (groups&Hc&Hd).
  exists groups. split_and!; [done| |done].
  by rewrite <-(length_fmap drawn), Hd, length_imap.
Qed.

(** C8.  A note longer than [max_chars] is drawn in the note column as
    its chunks, in order, on the page being drawn; the chunks have at most
    [max_chars] characters each and put together they are the note; a note
    of 85 characters has three, of 40, 40 and 5 characters. *)
Theorem C8_wrapped_note_round_trip note c y :
  (max_chars < length note)%nat →
  ∃ ops,
    (draw_note note (c, y)).1 = Canvas (pages c) (code c ++ ops)
    ∧ drawn ops = (λ ln, (col_note, ln)) <$> chunks note max_chars
    ∧ concat (snd <$> drawn ops) = note
    ∧ Forall (λ ln, 0 < length ln ≤ max_chars)%nat (snd <$> drawn ops)
    ∧ (length note = 85%nat →
       length <$> (snd <$> drawn ops) = [40; 40; 5]%nat).
Proof.
  intros Hl. exists (note_ops y (note_lines note)).
  rewrite draw_note_eq, drawn_note_ops. unfold note_lines.
  rewrite (proj2 (Nat.ltb_lt _ _) Hl).
  rewrite <-list_fmap_compose, list_fmap_id.
  split_and!; [done..| | |].
  - apply concat_chunks. unfold max_chars. lia.
  - apply chunks_bounds. unfold max_chars. lia.
  - apply chunks_85.
Qed.

(** C9.  [draw_subject] tests the cursor once, before the row: when it is
    under 20 mm the page is closed and a new one starts with the header;
    then the whole row is drawn on one page.  [draw_note] never closes a
    page: every line of the note goes to the page being drawn, each
    continuation line [line_h - 2] under the line before, wherever the
    cursor [y] is. *)
Theorem C9_page_break_only_before_row title m c y subj note :
  draw_subject title m (c, y) subj
  = (let '(c1, y1) :=
       if (y <? 20 * mm)%float
       then draw_header (title ++ continued) (showPage c)
       else (c, y) in
     (Canvas (pages c1) (code c1 ++ row_ops m y1 subj),
      (stacked_y y1 (drop 1 (note_lines (note_str (m !! Subject.id subj))))
       - line_h)%float))
  ∧ draw_note note (c, y)
    = (Canvas (pages c) (code c ++ note_ops y (note_lines note)),
       stacked_y y (drop 1 (note_lines note))).
Proof.
  split; [|apply draw_note_eq].
  rewrite draw_subject_eq, draw_header_eq. by destruct (y <? 20 * mm)%float.
Qed.

(** C10.  The rows of the report of a day are the registered subjects,
    each once, in ascending order of name; the pages draw them in that
    order; a subject with no row for the day is drawn with empty score,
    rank and note cells. *)
Theorem C10_one_row_per_subject d subjects t :
  let m := scores_map_of (scores_on d t) in
  let rows := subjects_by_name subjects in
  rows ≡ₚ subjects
  ∧ StronglySorted name_le rows
  ∧ (∃ groups,
       concat groups = rows
       ∧ drawn <$> report d subjects t
         = imap (λ i g, header_texts
                          (page_title (title_prefix ++ strftime_ymd d) i)
                        ++ (g ≫= row_texts m)) groups)
  ∧ ∀ subj,
      (d, Subject.id subj) ∉ key_of <$> t →
      row_texts m subj
      = [(col_subject, Subject.name subj); (col_score, []);
         (col_rank, []); (col_note, [])].
Proof.
  intros m rows. split_and!.
  - apply merge_sort_Permutation.
  - apply StronglySorted_merge_sort; apply _.
  - apply render_pages.
  - intros subj Hn. unfold row_texts, m. by rewrite scores_map_no_row.
Qed.

End report_proofs.

(** * The handlers on concrete requests, with CPython's builtins *)

#[local] Existing Instance cpython.
Import Examples.

(** The example of the specification: subject A gets score 88 and rank 2
    and loses the note it had; subject B, whose note is two spaces, gets
    no row. *)
Example save_two_subjects :
  serve (save_scores two_subjects) before = (after, inr jan10).
Proof. vm_compute. reflexivity. Qed.

Lemma before_ok : table_ok before.
Proof. split; apply (bool_decide_unpack _); vm_compute; exact I. Defined.

Lemma C1_witness :
  invalid_rank one_bad_rank 2
  ∧ ∃ e,
      serve (save_scores one_bad_rank) before = (before, inl e)
      ∧ match e with
        | ValueError what literal => rejected what literal
        | IntTooLarge => ∃ n, binds one_bad_rank n ∧ SQLite.fits n = false
        end.
Proof.
  assert (invalid_rank one_bad_rank 2) as Hbad.
  { exists (lit "first").
    split_and!; [vm_compute; reflexivity|discriminate|vm_compute; reflexivity]. }
  split; [exact Hbad|].
  apply (C1_invalid_number_rejects_batch one_bad_rank before (lit "2") 2).
  - vm_compute. repeat constructor.
  - vm_compute. reflexivity.
  - right. exact Hbad.
Defined.

(** An integer is bound when the session flushes: before the next
    query, which comes after the conversions of the next iteration, or at
    the commit.  The rank [2 ^ 63] of subject 1 is raised for at the
    commit; if subject 3 with its rank ["x"] comes next, [int] raises
    first; if subject 2 comes between them, the query for subject 2
    raises first. *)
Example overflow_is_raised_at_the_flush :
  serve (save_scores (large_rank ["1"]%string)) before = (before, inl IntTooLarge)
  ∧ serve (save_scores (large_rank ["1"; "3"]%string)) before
    = (before, inl (ValueError to_int (lit "x")))
  ∧ serve (save_scores (large_rank ["1"; "2"; "3"]%string)) before
    = (before, inl IntTooLarge)
  ∧ invalid_rank (large_rank ["1"; "2"; "3"]%string) 3.
Proof.
  split_and!; [vm_compute; reflexivity..|].
  exists (lit "x").
  split_and!; [vm_compute; reflexivity|discriminate|vm_compute; reflexivity].
Qed.

(** C1 as stated fails: the exception shows the refused string and the
    conversion, and neither the subject nor the field.  The rank ["x"] of
    subject 1, the rank ["x"] of subject 2 and the subject id ["x"] raise
    the same exception. *)
Lemma C1_error_does_not_identify_subject :
  invalid_rank (rank_x "1") 1 ∧ invalid_rank (rank_x "2") 2
  ∧ serve (save_scores (rank_x "1")) [] = ([], inl (ValueError to_int (lit "x")))
  ∧ serve (save_scores (rank_x "2")) [] = ([], inl (ValueError to_int (lit "x")))
  ∧ serve (save_scores id_x) [] = ([], inl (ValueError to_int (lit "x")))
  ∧ ¬ ∃ subject_of : exn → Z,
        ∀ f s sid e,
          submitted_ids f = [s] → py_int s = Some sid →
          invalid_rank f sid →
          serve (save_scores f) [] = ([], inl e) → subject_of e = sid.
Proof.
  assert (invalid_rank (rank_x "1") 1) as H1.
  { exists (lit "x").
    split_and!; [vm_compute; reflexivity|discriminate|vm_compute; reflexivity]. }
  assert (invalid_rank (rank_x "2") 2) as H2.
  { exists (lit "x").
    split_and!; [vm_compute; reflexivity|discriminate|vm_compute; reflexivity]. }
  split_and!; [done|done|vm_compute; reflexivity..|].
  intros [subject_of Hs].
  pose proof (Hs (rank_x "1") (lit "1") 1 _ eq_refl eq_refl H1 eq_refl) as E1.
  pose proof (Hs (rank_x "2") (lit "2") 2 _ eq_refl eq_refl H2 eq_refl) as E2.
  vm_compute in E1, E2. congruence.
Qed.

Lemma C2_witness :
  ¬ listed two_subjects 3
  ∧ filter (λ r, Score.subject_id r = 3) (serve (save_scores two_subjects) before).1
    = filter (λ r, Score.subject_id r = 3) before.
Proof.
  assert (¬ listed two_subjects 3) as Hn.
  { intros (s&Hin&Hs). vm_compute in Hin.
    repeat (apply elem_of_cons in Hin as [->|Hin]; [vm_compute in Hs; discriminate|]).
    by apply elem_of_nil in Hin. }
  split; [exact Hn|].
  apply (C2_unlisted_subject_untouched two_subjects before 3 before_ok Hn).
Defined.

(** C2 as stated fails: subject 1 is listed, none of [score[1]], [rank[1]]
    and [note[1]] is in the submission, and its row for the day is
    deleted. *)
Lemma C2_listed_subject_without_fields_is_deleted :
  form_get listed_without_fields (field_key "score" 1) = None
  ∧ form_get listed_without_fields (field_key "rank" 1) = None
  ∧ form_get listed_without_fields (field_key "note" 1) = None
  ∧ query_first jan10 1 before
    = Some (Score.mk 1 jan10 1 (Some 70%float) (Some 5) (Some (lit "old")))
  ∧ query_first jan10 1 (serve (save_scores listed_without_fields) before).1
    = None.
Proof. split_and!; vm_compute; reflexivity. Qed.

(** A score, a rank and a note with spaces around it for subject 1,
    which had other values: the row has the three values submitted. *)
Example save_with_note :
  serve (save_scores with_note) before = (noted, inr jan10).
Proof. vm_compute. reflexivity. Qed.

Lemma C3_witness :
  ∃ row,
    query_first jan10 1 noted = Some row
    ∧ Score.score row = Some 91.5%float
    ∧ Score.rank row = Some 3
    ∧ Score.note row = Some (lit "good work").
Proof.
  assert (serve (save_scores with_note) before = (noted, inr jan10)) as E
    by (vm_compute; reflexivity).
  assert (lit "1" ∈ submitted_ids with_note) as Hin
    by (vm_compute; repeat constructor).
  assert (py_int (lit "1") = Some 1) as Hs by (vm_compute; reflexivity).
  destruct (C3_record_holds_parsed_values with_note before noted jan10
              (lit "1") 1 before_ok E Hin Hs) as (sc&rk&E1&E2&Hrow&_).
  destruct E1 as [_ <-], E2 as [_ <-].
  exists (Score.mk 1 jan10 1 (Some 91.5%float) (Some 3) (Some (lit "good work"))).
  destruct Hrow as (_&Hs1&Hr1&Hn1).
  split_and!; [reflexivity|exact Hs1|exact Hr1|exact Hn1].
Defined.

Lemma neg_zero_is_not_zero : Some neg_zero ≠ Some 0%float.
Proof.
  intros E. assert (get_sign neg_zero = get_sign 0) as Hs by congruence.
  vm_compute in Hs. discriminate.
Qed.

(** C3 as stated fails: [float] returns a NaN for ["nan"], so that the
    score parses as present, and the row that is stored has no score;
    [float] returns negative zero for ["-0"], and the row has zero. *)
Lemma C3_stored_score_is_not_the_parsed_score :
  parsed_score (score_and_rank "nan") 1 = inr (Some nan)
  ∧ serve (save_scores (score_and_rank "nan")) []
    = ([Score.mk 1 jan10 1 None (Some 2) None], inr jan10)
  ∧ parsed_score (score_and_rank "-0") 1 = inr (Some neg_zero)
  ∧ serve (save_scores (score_and_rank "-0")) []
    = ([Score.mk 1 jan10 1 (Some 0%float) (Some 2) None], inr jan10)
  ∧ Some neg_zero ≠ Some 0%float
  ∧ ¬ ∀ f t t' d sid sc rk row,
        serve (save_scores f) t = (t', inr d) → listed f sid →
        parsed_score f sid = inr sc → parsed_rank f sid = inr rk →
        (sc, rk, parsed_note f sid) ≠ (None, None, None) →
        query_first d sid t' = Some row →
        Score.score row = sc.
Proof.
  split_and!; [vm_compute; reflexivity..|exact neg_zero_is_not_zero|].
  intros Hc.
  specialize (Hc (score_and_rank "nan") [] _ jan10 1 (Some nan) (Some 2)
                (Score.mk 1 jan10 1 None (Some 2) None) eq_refl).
  discriminate Hc.
  - exists (lit "1"). split; [vm_compute; repeat constructor|reflexivity].
  - vm_compute. reflexivity.
  - vm_compute. reflexivity.
  - discriminate.
  - vm_compute. reflexivity.
Qed.

(** C4.  The score ["nan"] with no rank and no note for subject 1, on an
    empty table: [float] returns a NaN, the three values are not all
    absent, and a row is stored; SQLite keeps no NaN, and the row has no
    score, no rank and no note. *)
Theorem C4_nan_score_leaves_blank_row :
  parsed_score nan_alone 1 = inr (Some nan)
  ∧ parsed_rank nan_alone 1 = inr None
  ∧ parsed_note nan_alone 1 = None
  ∧ serve (save_scores nan_alone) []
    = ([Score.mk 1 jan10 1 None None None], inr jan10)
  ∧ Exists blank (serve (save_scores nan_alone) []).1.
Proof.
  split_and!; [vm_compute; reflexivity..|].
  apply Exists_cons_hd. by split_and!.
Qed.

(** Deleting by an empty submission, and repeating it. *)
Example save_cleared :
  serve (save_scores cleared) first_day = ([], inr jan10)
  ∧ serve (save_scores cleared) [] = ([], inr jan10).
Proof. split; vm_compute; reflexivity. Qed.

Lemma C5_witness :
  serve (save_scores with_note) noted = (noted, inr jan10)
  ∧ NoDup (key_of <$> noted)
  ∧ ∃ row, filter (λ x, key_of x = (jan10, 1)) noted = [row]
           ∧ Score.score row = Some 91.5%float
           ∧ Score.rank row = Some 3
           ∧ Score.note row = Some (lit "good work").
Proof.
  apply (C5_resubmission_keeps_one_record with_note before noted jan10
           (lit "1") 1 (Some 91.5%float) (Some 3)).
  - exact before_ok.
  - vm_compute. reflexivity.
  - vm_compute. repeat constructor.
  - vm_compute. reflexivity.
  - split; [by eexists|vm_compute; reflexivity].
  - split; [by eexists|vm_compute; reflexivity].
  - discriminate.
Defined.

(** C5 as stated fails: the score ["-0"] and the rank 2 for subject 1,
    submitted twice, leave one row, and it does not hold the score
    submitted, which is negative zero: it has zero.  With the score
    ["nan"], the one row has no score. *)
Lemma C5_resubmitted_score_is_not_held :
  let row s := Score.mk 1 jan10 1 s (Some 2) None in
  parsed_score (score_and_rank "-0") 1 = inr (Some neg_zero)
  ∧ serve (save_scores (score_and_rank "-0")) []
    = ([row (Some 0%float)], inr jan10)
  ∧ serve (save_scores (score_and_rank "-0")) [row (Some 0%float)]
    = ([row (Some 0%float)], inr jan10)
  ∧ Score.score (row (Some 0%float)) ≠ Some neg_zero
  ∧ parsed_score (score_and_rank "nan") 1 = inr (Some nan)
  ∧ serve (save_scores (score_and_rank "nan")) [] = ([row None], inr jan10)
  ∧ serve (save_scores (score_and_rank "nan")) [row None]
    = ([row None], inr jan10)
  ∧ Score.score (row None) ≠ Some nan.
Proof.
  split_and!; try (vm_compute; reflexivity); [|discriminate].
  intros E. by apply neg_zero_is_not_zero.
Qed.

(** A rank of [2 ^ 63] is an integer for [int], and not one for SQLite:
    the request raises when the row is sent, at the commit, and the table
    is what it was. *)
Example rank_too_large :
  serve (save_scores (rank_of "9223372036854775808")) before
  = (before, inl IntTooLarge)
  ∧ serve (save_scores (rank_of "9223372036854775807")) []
    = ([Score.mk 1 jan10 1 None (Some (2 ^ 63 - 1)) None], inr jan10).
Proof. split; vm_compute; reflexivity. Qed.

Lemma C6_witness :
  ((∃ y, y ∈ [] ∧ Score.rank y = Some (-5))
   ∨ (∃ s sid v, s ∈ submitted_ids negative_rank ∧ py_int s = Some sid
        ∧ form_get negative_rank (field_key "rank" sid) = Some v
        ∧ py_int v = Some (-5)))
  ∧ (∃ m row, py_int (lit "-5") = Some m ∧ SQLite.fits m = true
       ∧ query_first jan10 1 [Score.mk 1 jan10 1 None (Some (-5)) None]
         = Some row
       ∧ Score.rank row = Some m)
  ∧ (∃ e, serve (save_scores (rank_of "9223372036854775808")) before
          = (before, inl e)).
Proof.
  destruct (C6_stored_rank_is_parsed_int negative_rank []) as (Hin&Hret&_).
  destruct (C6_stored_rank_is_parsed_int (rank_of "9223372036854775808") before)
    as (_&_&Hbig).
  split_and!.
  - apply (Hin (Score.mk 1 jan10 1 None (Some (-5)) None) (-5)).
    + vm_compute. repeat constructor.
    + reflexivity.
  - apply (Hret _ jan10 (lit "1") 1 (lit "-5")).
    + split; constructor.
    + vm_compute. reflexivity.
    + vm_compute. repeat constructor.
    + vm_compute. reflexivity.
    + vm_compute. reflexivity.
    + discriminate.
  - apply (Hbig (lit "1") 1 (lit "9223372036854775808") (2 ^ 63)).
    + vm_compute. repeat constructor.
    + vm_compute. reflexivity.
    + vm_compute. reflexivity.
    + discriminate.
    + vm_compute. reflexivity.
    + vm_compute. reflexivity.
Defined.

(** C6 as stated fails: [int] accepts ["-5"], and the rank -5 is
    stored. *)
Lemma C6_negative_rank_is_stored :
  serve (save_scores negative_rank) []
  = ([Score.mk 1 jan10 1 None (Some (-5)) None], inr jan10)
  ∧ ∃ x m, x ∈ (serve (save_scores negative_rank) []).1
           ∧ Score.rank x = Some m ∧ ¬ 0 < m.
Proof.
  split; [vm_compute; reflexivity|].
  exists (Score.mk 1 jan10 1 None (Some (-5)) None), (-5).
  split_and!; [vm_compute; repeat constructor|reflexivity|lia].
Qed.

Lemma C8_witness :
  ∃ ops,
    (draw_note note85 (Canvas [] [], header_y)).1 = Canvas [] ([] ++ ops)
    ∧ drawn ops = (λ ln, (col_note, ln)) <$> chunks note85 max_chars
    ∧ concat (snd <$> drawn ops) = note85
    ∧ Forall (λ ln, 0 < length ln ≤ max_chars)%nat (snd <$> drawn ops)
    ∧ (length note85 = 85%nat →
       length <$> (snd <$> drawn ops) = [40; 40; 5]%nat).
Proof.
  apply (C8_wrapped_note_round_trip note85 (Canvas [] []) header_y).
  vm_compute. lia.
Defined.

(** The lines of a long note are drawn on one page, far under the 20 mm
    of the margin: the note of 1700 characters, drawn from the first row
    of a page, takes 43 lines and ends under the page. *)
Example note_runs_past_margin :
  let '(c, y) := draw_note note1700 (Canvas [] [], header_y) in
  pages c = [] ∧ length (code c) = 43%nat
  ∧ (y <? 20 * mm)%float = true ∧ (y <? 0)%float = true.
Proof. vm_compute. done. Qed.

Lemma C10_witness :
  let m := scores_map_of (scores_on jan10 after) in
  let rows := subjects_by_name subjects in
  rows ≡ₚ subjects
  ∧ StronglySorted name_le rows
  ∧ (∃ groups,
       concat groups = rows
       ∧ drawn <$> report jan10 subjects after
         = imap (λ i g, header_texts
                          (page_title (title_prefix ++ strftime_ymd jan10) i)
                        ++ (g ≫= row_texts m)) groups)
  ∧ row_texts m (Subject.mk 2 (lit "art"))
    = [(col_subject, lit "art"); (col_score, []); (col_rank, []); (col_note, [])].
Proof.
  destruct (C10_one_row_per_subject jan10 subjects after) as (Hp&Hs&Hg&Hr).
  split_and!; [exact Hp|exact Hs|exact Hg|].
  apply (Hr (Subject.mk 2 (lit "art"))).
  apply (bool_decide_unpack _). vm_compute. exact I.
Defined.

(** The report of the day: the subjects by name; subject 2 has no row. *)
Example report_of_the_day :
  drawn <$> report jan10 subjects after
  = [header_texts (title_prefix ++ lit "2024-01-10")
     ++ [(col_subject, lit "art"); (col_score, []); (col_rank, []);
         (col_note, []);
         (col_subject, lit "math"); (col_score, lit "88.0");
         (col_rank, lit "2"); (col_note, []);
         (col_subject, lit "zoo"); (col_score, []); (col_rank, lit "1");
         (col_note, [])]].
Proof. vm_compute. reflexivity. Qed.

(** A value submitted for a subject that is not listed is never read: the
    score ["abc"] of subject 7 does not stop the request. *)
Example unlisted_value_is_not_read :
  serve (save_scores (two_subjects ++ [(lit "score[7]", lit "abc")])) before
  = (after, inr jan10).
Proof. vm_compute. reflexivity. Qed.

(** * More of the ledger *)

Section more_ledger.
Context `{Builtins}.

Lemma steps_all_convert f d ids w w' :
  steps f d ids w w' →
  Forall (λ s, ∃ sid sc rk, py_int s = Some sid
                 ∧ parsed_score f sid = inr sc ∧ parsed_rank f sid = inr rk
                 ∧ SQLite.fits sid = true
                 ∧ ∀ m, rk = Some m → SQLite.fits m = true) ids.
Proof. induction 1; constructor; [by eexists _, _, _|done]. Qed.

Lemma steps_exist f d ids w :
  Forall (λ s, ∃ sid sc rk, py_int s = Some sid
                 ∧ parsed_score f sid = inr sc ∧ parsed_rank f sid = inr rk
                 ∧ SQLite.fits sid = true
                 ∧ ∀ m, rk = Some m → SQLite.fits m = true) ids →
  ∃ w', steps f d ids w w'.
Proof.
  intros Hall. revert w.
  induction Hall as [|s ids (sid&sc&rk&?&?&?&?&?) _ IH]; intros w.
  - exists w. constructor.
  - destruct (IH (apply_edit d sid sc rk (parsed_note f sid) w)) as [w' S].
    exists w'. by econstructor.
Qed.

(** X1.  Whether a request returns depends on the form alone: it returns when
    the date, every listed id, and the score and the rank of every listed
    subject convert, and the ids and the ranks are integers SQLite has;
    if not, it raises the [ValueError] of a refused string or the
    [OverflowError] of an integer of the request, and the table is left as
    it was. *)
Theorem save_scores_returns_iff_all_convert f t :
  let converts :=
    (∃ d, str_to_date (form_get f (lit "the_date")) = inr d)
    ∧ Forall (λ s, ∃ sid sc rk,
                py_int s = Some sid ∧ parsed_score f sid = inr sc
                ∧ parsed_rank f sid = inr rk
                ∧ SQLite.fits sid = true
                ∧ ∀ m, rk = Some m → SQLite.fits m = true) (submitted_ids f) in
  ((∃ t' d, serve (save_scores f) t = (t', inr d)) ↔ converts)
  ∧ (¬ converts →
     ∃ e, serve (save_scores f) t = (t, inl e)
          ∧ match e with
            | ValueError what s => rejected what s
            | IntTooLarge => ∃ n, binds f n ∧ SQLite.fits n = false
            end).
Proof.
  intros converts.
  assert ((∃ t' d, serve (save_scores f) t = (t', inr d)) ↔ converts) as Hiff.
  { split.
    - intros (t'&d&[Ed S]%serve_save_scores_returns). split; [eauto|].
      by eapply steps_all_convert.
    - intros [[d Ed] Hall]. destruct (steps_exist f d _ t Hall) as [t' S].
      exists t', d. by apply serve_of_steps. }
  split; [done|]. intros Hn.
  destruct (serve (save_scores f) t) as [t' [e|d]] eqn:E.
  - apply serve_save_scores_raises in E as (->&He). exists e. split; [done|].
    by destruct e.
  - destruct Hn. apply Hiff. eauto.
Qed.

(** X2.  A request for one day leaves the rows of every other day as they
    are. *)
Theorem save_scores_keeps_other_days f t d :
  table_ok t →
  str_to_date (form_get f (lit "the_date")) = inr d →
  filter (λ r, Score.the_date r ≠ d) (serve (save_scores f) t).1
  = filter (λ r, Score.the_date r ≠ d) t.
Proof.
  intros Hok Ed.
  destruct (serve (save_scores f) t) as [t' [e|d']] eqn:E; cbn.
  - by apply serve_save_scores_raises in E as [-> _].
  - apply serve_save_scores_returns in E as [Ed' S].
    assert (d' = d) as -> by congruence.
    eapply steps_unlisted; [done..|].
    intros s sid x _ _ Hx [= Hd _]. done.
Qed.

Lemma apply_edit_keeps_id d sid s r n w row :
  (s, r, n) ≠ (None, None, None) →
  query_first d sid w = Some row →
  query_first d sid (apply_edit d sid s r n w)
  = Some (Score.mk (Score.id row) d sid (kept s) r n).
Proof.
  intros Hne E. rewrite apply_edit_set, E by done. unfold query_first in *.
  rewrite find_fmap. erewrite find_ext, E.
  - apply query_first_Some in E as [_ [= Hd Hs]]. cbn. unfold set_row.
    by rewrite bool_decide_eq_true_2, Hd, Hs.
  - intros x. cbn. unfold same_key.
    pose proof (set_row_key (Score.id row) (kept s) r n x) as [= -> ->]. done.
Qed.

Lemma steps_keep_id f d ids w w' sid sc rk i :
  steps f d ids w w' → table_ok w →
  parsed_score f sid = inr sc → parsed_rank f sid = inr rk →
  (sc, rk, parsed_note f sid) ≠ (None, None, None) →
  (∃ row, query_first d sid w = Some row ∧ Score.id row = i) →
  ∃ row, query_first d sid w' = Some row ∧ Score.id row = i.
Proof.
  induction 1 as [|s0 ids sid0 sc0 rk0 w w' Es E1 E2 Hs0 Hr0 S IH]; [done|].
  intros Hok P1 P2 Hne (row&Hq&Hi).
  apply IH; [by apply apply_edit_ok|done..|].
  destruct (decide (sid0 = sid)) as [->|Hd].
  - assert (sc0 = sc) as -> by congruence.
    assert (rk0 = rk) as -> by congruence.
    rewrite (apply_edit_keeps_id _ _ _ _ _ _ row) by done. eauto.
  - rewrite apply_edit_other_key; [eauto|apply Hok|congruence].
Qed.

(** X3.  A row that exists is changed in place: after a request that returns,
    the row of a listed subject that had a row, and is given a score, a
    rank or a note, has the primary key it had. *)
Theorem save_scores_updates_in_place f t t' d s sid row :
  table_ok t →
  serve (save_scores f) t = (t', inr d) →
  s ∈ submitted_ids f → py_int s = Some sid →
  query_first d sid t = Some row →
  (∀ sc rk, parsed_score f sid = inr sc → parsed_rank f sid = inr rk →
            (sc, rk, parsed_note f sid) ≠ (None, None, None)) →
  ∃ row', query_first d sid t' = Some row'
          ∧ Score.id row' = Score.id row
          ∧ key_of row' = key_of row.
Proof.
  intros Hok [_ S]%serve_save_scores_returns Hin Hs Hq Hne.
  destruct (steps_listed_parsed _ _ _ _ _ _ _ S Hin Hs) as (sc&rk&E1&E2&_).
  destruct (steps_keep_id _ _ _ _ _ sid sc rk (Score.id row) S Hok E1 E2)
    as (row'&Hq'&Hi); [by apply Hne|eauto|].
  exists row'. split_and!; [done..|].
  apply query_first_Some in Hq as [_ ->].
  by apply query_first_Some in Hq' as [_ ->].
Qed.

Lemma for_each_app {A} (l k : list A) body st :
  for_each (l ++ k) body st =
    match for_each l body st with
    | (st', inr _) => for_each k body st'
    | (st', inl e) => (st', inl e)
    end.
Proof.
  revert st. induction l as [|x l IH]; intros st; [done|].
  cbn [app]. rewrite !for_each_cons. destruct (body x st) as [st1 [e|[]]]; [done|].
  apply IH.
Qed.

Lemma for_each_ext {A} (l : list A) body1 body2 st :
  (∀ x st, body1 x st = body2 x st) →
  for_each l body1 st = for_each l body2 st.
Proof.
  intros Hb. revert st. induction l as [|x l IH]; intros st; [done|].
  rewrite !for_each_cons, Hb. destruct (body2 x st) as [st1 [e|[]]]; [done|].
  apply IH.
Qed.

Lemma form_get_app f k v key :
  key ≠ k → form_get (f ++ [(k, v)]) key = form_get f key.
Proof.
  intros Hne. unfold form_get. rewrite find_app.
  destruct (find _ f); [done|]. cbn. by rewrite bool_decide_eq_false_2.
Qed.

Lemma form_getlist_app f k v :
  form_getlist (f ++ [(k, v)]) k = form_getlist f k ++ [v].
Proof.
  unfold form_getlist. rewrite filter_app, fmap_app.
  by rewrite filter_cons_True, filter_nil.
Qed.

(** The keys of the fields are not the key of the list of ids. *)
Lemma field_keys_apart sid :
  field_key "score" sid ≠ lit "score_subject_ids"
  ∧ field_key "rank" sid ≠ lit "score_subject_ids"
  ∧ field_key "note" sid ≠ lit "score_subject_ids".
Proof.
  split_and!; intros E.
  - apply (f_equal (λ l, l !! 5%nat)) in E. discriminate E.
  - apply (f_equal (λ l, l !! 0%nat)) in E. discriminate E.
  - apply (f_equal (λ l, l !! 0%nat)) in E. discriminate E.
Qed.

Lemma save_one_listed_again f s0 d x st :
  save_one (f ++ [(lit "score_subject_ids", s0)]) d x st = save_one f d x st.
Proof.
  unfold save_one, lift, int_, mbind, handler_bind.
  destruct (py_int x) as [sid|]; [|done].
  destruct (field_keys_apart sid) as (?&?&?).
  by rewrite !form_get_app.
Qed.

(** The iterations of a loop that returns have converted their strings
    and bound their ids. *)
Lemma for_each_converts f d ids st st' s :
  for_each ids (save_one f d) st = (st', inr ()) → s ∈ ids →
  ∃ sid sc rk, py_int s = Some sid ∧ parsed_score f sid = inr sc
               ∧ parsed_rank f sid = inr rk ∧ SQLite.fits sid = true.
Proof.
  revert st. induction ids as [|s0 ids IH]; intros st E Hin.
  - by apply elem_of_nil in Hin.
  - rewrite for_each_cons in E. destruct (py_int s0) as [sid|] eqn:Es.
    + rewrite (save_one_eq _ _ _ sid) in E by done.
      destruct (parsed_score f sid) as [|sc] eqn:E1; [by inversion E|].
      destruct (parsed_rank f sid) as [|rk] eqn:E2; [by inversion E|].
      destruct (forallb _ (unflushed st)); [|by inversion E].
      destruct (SQLite.fits sid) eqn:Ef; [|by inversion E].
      apply elem_of_cons in Hin as [->|Hin]; [|by eapply IH].
      exists sid, sc, rk. by rewrite Es.
    + rewrite save_one_raises_int in E by done. by inversion E.
Qed.

(** X4.  A subject that is listed twice: a request that lists once more, at
    the end, a subject it lists (by the same string, or by another
    spelling of the same number) does what the request without it does:
    the same table, and the same date or the same exception. *)
Theorem save_scores_duplicate_id f t s s' :
  table_ok t → s' ∈ submitted_ids f → py_int s = py_int s' →
  serve (save_scores (f ++ [(lit "score_subject_ids", s)])) t
  = serve (save_scores f) t.
Proof.
  intros Hok Hin Hsame. unfold serve. rewrite !save_scores_eq.
  rewrite form_get_app by discriminate.
  destruct (str_to_date _) as [e|d]; [done|].
  unfold submitted_ids. rewrite form_getlist_app. fold (submitted_ids f).
  rewrite (for_each_ext _ _ (save_one f d)) by apply save_one_listed_again.
  rewrite for_each_app.
  destruct (for_each (submitted_ids f) (save_one f d) (DB t t []))
    as [st1 [e|[]]] eqn:E; [done|].
  pose proof (for_each_committed _ _ _ _ _ _ E) as Hc.
  destruct (for_each_converts _ _ _ _ _ _ E Hin) as (sid&sc&rk&Hs&E1&E2&Hf).
  rewrite <-Hsame in Hs.
  rewrite for_each_cons, (save_one_eq _ _ _ sid), E1, E2, Hf by done.
  destruct (forallb SQLite.fits (unflushed st1)) eqn:Eu; [|done].
  apply for_each_returns in E as [S _]; [|done]. cbn [working] in S.
  rewrite Hsame in Hs.
  destruct (steps_holds _ _ _ _ _ _ _ S Hok Hin Hs) as (sc'&rk'&E1'&E2'&Hh).
  destruct (steps_listed_parsed _ _ _ _ _ _ _ S Hin Hs) as (?&rk''&_&E2''&_&Hr).
  assert (sc' = sc) as -> by congruence.
  assert (rk' = rk) as -> by congruence.
  assert (rk'' = rk) as -> by congruence.
  rewrite apply_edit_again; [|by eapply steps_ok|done].
  cbn [for_each mret handler_ret unflushed working].
  by rewrite edit_binds_fit.
Qed.

(** ** What the views read back *)

Lemma foldl_insert_find (l : table) (m : gmap Z Score.t) sid :
  NoDup (Score.subject_id <$> l) →
  foldl (λ m s, <[Score.subject_id s := s]> m) m l !! sid
  = match find (λ r, bool_decide (Score.subject_id r = sid)) l with
    | Some r => Some r
    | None => m !! sid
    end.
Proof.
  revert m. induction l as [|r l IH]; intros m Hnd; [done|].
  rewrite fmap_cons in Hnd. apply NoDup_cons in Hnd as [Hr Hnd].
  cbn [foldl find]. rewrite IH by done.
  case_bool_decide as Hs.
  - subst sid. destruct (find _ l) as [r'|] eqn:E.
    + apply find_some in E as [Hin Heq%bool_decide_eq_true].
      destruct Hr. rewrite <-Heq. apply list_elem_of_fmap_2.
      by apply list_elem_of_In.
    + by rewrite lookup_insert_eq.
  - destruct (find _ l); [done|]. by rewrite lookup_insert_ne.
Qed.

Lemma NoDup_fmap_on {A B C} (g : A → B) (h : A → C) (l : list A) :
  (∀ x y, x ∈ l → y ∈ l → h x = h y → g x = g y) →
  NoDup (g <$> l) → NoDup (h <$> l).
Proof.
  intros Hinj. induction l as [|x l IH]; [constructor|].
  rewrite !fmap_cons, !NoDup_cons. intros [Hx Hnd]. split.
  - intros (y&Hy&Hin)%list_elem_of_fmap. apply Hx.
    rewrite (Hinj x y); [by apply list_elem_of_fmap_2|by left|by right|done].
  - apply IH; [|done]. intros y z Hy Hz. apply Hinj; by right.
Qed.

Lemma scores_on_subjects d (t : table) :
  NoDup (key_of <$> t) → NoDup (Score.subject_id <$> scores_on d t).
Proof.
  intros Hnd. unfold scores_on.
  apply (fmap_filter_NoDup key_of (λ r, Score.the_date r = d)) in Hnd.
  revert Hnd. apply NoDup_fmap_on.
  intros x y [Hx _]%list_elem_of_filter [Hy _]%list_elem_of_filter Hs.
  unfold key_of. by rewrite Hx, Hy, Hs.
Qed.

Lemma find_scores_on d sid (t : table) :
  find (λ r, bool_decide (Score.subject_id r = sid)) (scores_on d t)
  = query_first d sid t.
Proof.
  unfold scores_on, query_first. induction t as [|r t IH]; [done|].
  rewrite filter_cons. cbn [find]. unfold same_key at 1.
  destruct (decide (Score.the_date r = d)) as [Hd|Hd].
  - cbn [find]. rewrite IH.
    destruct (decide (Score.subject_id r = sid)) as [Hs|Hs].
    + by rewrite !bool_decide_eq_true_2.
    + rewrite !bool_decide_eq_false_2; [done|tauto|done].
  - rewrite IH. rewrite bool_decide_eq_false_2; [done|tauto].
Qed.

(** X5.  The map [scores_map] of [scores_view] and [export_pdf] holds, for a
    subject, the row of the day for that subject, and nothing for a
    subject without one. *)
Theorem scores_map_is_the_row_of_the_day d sid (t : table) :
  table_ok t →
  scores_map_of (scores_on d t) !! sid = query_first d sid t.
Proof.
  intros [_ Hk]. unfold scores_map_of.
  rewrite foldl_insert_find by by apply scores_on_subjects.
  rewrite find_scores_on. by destruct (query_first d sid t).
Qed.

Lemma scores_view_context arg a ctx d :
  scores_view arg a = inr ctx → str_to_date arg = inr d →
  v_d ctx = d
  ∧ v_subjects ctx = subjects_by_name (subjects_of a)
  ∧ v_scores_map ctx = scores_map_of (scores_on d (scores_of a)).
Proof.
  unfold scores_view. intros E Ed. rewrite Ed in E. cbn in E.
  destruct (month_navigation d) as [|[[fd nm] pm]]; [done|]. cbn in E.
  destruct (weekday_label d); [done|]. cbn in E. by injection E as <-.
Qed.

(** X6.  What is saved is what is shown: after a request to [save_scores] that
    returns, [scores_view] for the same day has, for a listed subject, a
    row with the rank and the note submitted and what a REAL column keeps
    of the score submitted, or no row when the three are absent. *)
Theorem saved_scores_are_shown f t t' d s sid sc rk arg subs ctx :
  table_ok t →
  serve (save_scores f) t = (t', inr d) →
  s ∈ submitted_ids f → py_int s = Some sid →
  spec_number py_float (form_get f (field_key "score" sid)) sc →
  spec_number py_int (form_get f (field_key "rank" sid)) rk →
  str_to_date arg = inr d →
  scores_view arg (App subs t') = inr ctx →
  let note := spec_note (form_get f (field_key "note" sid)) in
  match v_scores_map ctx !! sid with
  | Some row =>
      (sc, rk, note) ≠ (None, None, None)
      ∧ Score.score row = sc ≫= SQLite.real
      ∧ Score.rank row = rk
      ∧ Score.note row = note
  | None => sc = None ∧ rk = None ∧ note = None
  end.
Proof.
  intros Hok E Hin Hs E1 E2 Ed Ev note.
  destruct (scores_view_context _ _ _ _ Ev Ed) as (_&_&->). cbn [scores_of].
  pose proof (proj2 (serve_save_scores_returns _ _ _ _ E)) as S.
  rewrite scores_map_is_the_row_of_the_day by by eapply steps_ok.
  destruct (served_holds _ _ _ _ _ _ Hok E Hin Hs) as (sc'&rk'&E1'&E2'&_&Hh).
  assert (sc' = sc) as -> by by eapply spec_number_inj.
  assert (rk' = rk) as -> by by eapply spec_number_inj.
  exact Hh.
Qed.

(** X7.  What is saved is what is printed: after a request to [save_scores]
    that returns, the report of the same day draws the registered
    subjects in order of name, and for a listed subject the cells are its
    name, [str] of what a REAL column keeps of the score submitted, [str]
    of the rank submitted and the lines of the note submitted, each empty
    when the value is absent. *)
Theorem saved_scores_are_printed f t t' d s sid sc rk subs :
  table_ok t →
  serve (save_scores f) t = (t', inr d) →
  s ∈ submitted_ids f → py_int s = Some sid →
  spec_number py_float (form_get f (field_key "score" sid)) sc →
  spec_number py_int (form_get f (field_key "rank" sid)) rk →
  let m := scores_map_of (scores_on d t') in
  (∃ groups,
     concat groups = subjects_by_name subs
     ∧ drawn <$> report d subs t'
       = imap (λ i g, header_texts
                        (page_title (title_prefix ++ strftime_ymd d) i)
                      ++ (g ≫= row_texts m)) groups)
  ∧ ∀ subj, Subject.id subj = sid →
      row_texts m subj
      = cells_of (Subject.name subj) (sc ≫= SQLite.real) rk
          (spec_note (form_get f (field_key "note" sid))).
Proof.
  intros Hok E Hin Hs E1 E2 m.
  split; [apply render_pages|]. intros subj <-.
  pose proof (proj2 (serve_save_scores_returns _ _ _ _ E)) as S.
  unfold row_texts, cells_of, m.
  rewrite scores_map_is_the_row_of_the_day by by eapply steps_ok.
  destruct (served_holds _ _ _ _ _ _ Hok E Hin Hs) as (sc'&rk'&E1'&E2'&_&Hh).
  assert (sc' = sc) as -> by by eapply spec_number_inj.
  assert (rk' = rk) as -> by by eapply spec_number_inj.
  unfold holds_edit, kept in Hh.
  destruct (query_first d (Subject.id subj) t') as [row|].
  - destruct Hh as (_&<-&<-&<-). by destruct row as [? ? ? [] [] []].
  - by destruct Hh as (->&->&->).
Qed.


(** ** The calendar of [scores_view] *)

Lemma navigation_checked :
  forallb (λ y, forallb (navigation_agrees y) all_months) all_years = true.
Proof. vm_cast_no_check (eq_refl true). Qed.

Lemma navigation_agrees_all y m :
  1 ≤ y ≤ 9999 → 1 ≤ m ≤ 12 → navigation_agrees y m = true.
Proof.
  intros Hy Hm. pose proof navigation_checked as Hc.
  rewrite forallb_forall in Hc. specialize (Hc y).
  rewrite forallb_forall in Hc. apply Hc.
  - apply list_elem_of_In, list_elem_of_fmap. exists (Z.to_nat y).
    split; [lia|]. apply elem_of_seq. unfold Calendar.MAXYEAR. lia.
  - apply list_elem_of_In, list_elem_of_fmap. exists (Z.to_nat m).
    split; [lia|]. apply elem_of_seq. lia.
Qed.

Lemma valid_bounds d :
  Calendar.valid d → 1 ≤ year d ≤ 9999 ∧ 1 ≤ month d ≤ 12 ∧ 1 ≤ day d.
Proof.
  unfold Calendar.valid, Calendar.check_date_fields, Calendar.MINYEAR,
    Calendar.MAXYEAR.
  rewrite !andb_true_iff, !Z.leb_le. lia.
Qed.

Lemma month_navigation_day d :
  month_navigation d = month_navigation (Date (year d) (month d) 1).
Proof. reflexivity. Qed.

(** Away from the two ends of the calendar, [month_navigation] gives the
    first day of the month, of the next month and of the month before. *)
Lemma month_navigation_inside d :
  Calendar.valid d → at_calendar_end d = false →
  month_navigation d
  = inr (first_of_month d, first_of_next_month d, first_of_prev_month d).
Proof.
  intros (Hy&Hm&_)%valid_bounds Hend.
  pose proof (navigation_agrees_all _ _ Hy Hm) as Ha.
  unfold navigation_agrees in Ha. rewrite <-month_navigation_day in Ha.
  change (at_calendar_end (Date (year d) (month d) 1))
    with (at_calendar_end d) in Ha.
  destruct (month_navigation d) as [[]|[[fd nm] pm]]; try done.
  - by rewrite Hend in Ha.
  - rewrite !andb_true_iff in Ha. destruct Ha as [[[_ E1] E2] E3].
    apply bool_decide_eq_true in E1, E2, E3. by subst.
Qed.

Lemma month_navigation_end d :
  Calendar.valid d → at_calendar_end d = true →
  month_navigation d = inl OverflowError.
Proof.
  intros (Hy&Hm&_)%valid_bounds Hend.
  pose proof (navigation_agrees_all _ _ Hy Hm) as Ha.
  unfold navigation_agrees in Ha. rewrite <-month_navigation_day in Ha.
  change (at_calendar_end (Date (year d) (month d) 1))
    with (at_calendar_end d) in Ha.
  destruct (month_navigation d) as [[]|[[fd nm] pm]]; try done.
  by rewrite Hend in Ha.
Qed.

Lemma weekday_label_ok d :
  ∃ w, weekday_label d = inr w
       ∧ WEEKDAY_ZH !! Z.to_nat (Calendar.weekday d) = Some w.
Proof.
  unfold weekday_label.
  assert (0 ≤ Calendar.weekday d < 7) as Hw
    by (unfold Calendar.weekday; apply Z.mod_pos_bound; lia).
  rewrite (proj2 (Z.ltb_lt _ _)), (proj2 (Z.leb_le _ _)) by lia.
  destruct (WEEKDAY_ZH !! Z.to_nat (Calendar.weekday d)) as [w|] eqn:E; [eauto|].
  apply lookup_ge_None in E. cbn in E. lia.
Qed.

(** X8.  [scores_view] for a day of a month that is neither December 9999 nor
    January of the year 1: the view returns; the context has the day, the
    label of its day of the week, the subjects by name, the rows of the
    day, and the first days of the month, of the month before and of the
    month after. *)
Theorem scores_view_context_of_the_month arg a d :
  str_to_date arg = inr d → Calendar.valid d → at_calendar_end d = false →
  ∃ w,
    WEEKDAY_ZH !! Z.to_nat (Calendar.weekday d) = Some w
    ∧ scores_view arg a
      = inr (Context d w (subjects_by_name (subjects_of a))
               (scores_map_of (scores_on d (scores_of a)))
               (first_of_month d) (first_of_prev_month d)
               (first_of_next_month d)).
Proof.
  intros Ed Hv Hend. destruct (weekday_label_ok d) as (w&Ew&Hw).
  exists w. split; [done|].
  unfold scores_view. rewrite Ed. cbn.
  rewrite month_navigation_inside by done. cbn. by rewrite Ew.
Qed.

(** X9.  In December 9999 and in January of the year 1 the neighbouring month
    is outside of [date]: [scores_view] raises [OverflowError]. *)
Theorem scores_view_overflows_at_calendar_ends arg a d :
  str_to_date arg = inr d → Calendar.valid d → at_calendar_end d = true →
  scores_view arg a = inl OverflowError.
Proof.
  intros Ed Hv Hend. unfold scores_view. rewrite Ed. cbn.
  by rewrite month_navigation_end.
Qed.

(** ** The registry of subjects *)

Lemma find_name_None (l : list Subject.t) name :
  find (λ s, bool_decide (Subject.name s = name)) l = None
  ↔ name ∉ Subject.name <$> l.
Proof.
  split.
  - intros E (s&->&Hin)%list_elem_of_fmap. apply list_elem_of_In in Hin.
    apply (find_none _ _ E), bool_decide_eq_false in Hin. done.
  - intros Hn. induction l as [|s l IH]; [done|]. cbn.
    rewrite fmap_cons, not_elem_of_cons in Hn. destruct Hn as [Hs Hn].
    rewrite bool_decide_eq_false_2 by done. by apply IH.
Qed.

Lemma find_id_None (l : list Subject.t) sid :
  find (λ s, bool_decide (Subject.id s = sid)) l = None
  ↔ sid ∉ Subject.id <$> l.
Proof.
  split.
  - intros E (s&->&Hin)%list_elem_of_fmap. apply list_elem_of_In in Hin.
    apply (find_none _ _ E), bool_decide_eq_false in Hin. done.
  - intros Hn. induction l as [|s l IH]; [done|]. cbn.
    rewrite fmap_cons, not_elem_of_cons in Hn. destruct Hn as [Hs Hn].
    rewrite bool_decide_eq_false_2 by done. by apply IH.
Qed.

Lemma next_subject_id_fresh (l : list Subject.t) s :
  s ∈ l → Subject.id s < next_subject_id l.
Proof.
  intros Hin. apply (list_elem_of_fmap_2 Subject.id) in Hin.
  unfold next_subject_id.
  destruct (Subject.id <$> l) as [|i ids]; [by apply elem_of_nil in Hin|].
  apply elem_of_cons, foldr_max_le in Hin. lia.
Qed.

(** X10.  A name that is missing, empty or made of spaces is refused, and
    nothing changes. *)
Theorem add_subject_refuses_blank_name f a :
  (∀ v, form_get f (lit "name") = Some v →
        Forall (λ c, Py.isspace c = true) v) →
  add_subject f a = (a, Flash "error" msg_name_empty).
Proof.
  intros Hv. unfold add_subject.
  destruct (form_get f (lit "name")) as [v|] eqn:E; cbn [default].
  - by rewrite strip_spaces by by apply Hv.
  - done.
Qed.

Lemma add_subject_cases f a :
  let name := Py.strip (default [] (form_get f (lit "name"))) in
  add_subject f a =
    if decide (name = []) then (a, Flash "error" msg_name_empty)
    else if decide (name ∈ Subject.name <$> subjects_of a)
         then (a, Flash "error" msg_name_exists)
         else (App (insert_subject (subjects_of a) name) (scores_of a),
               Flash "success" (msg_added ++ name)).
Proof.
  intros name. unfold add_subject. fold name.
  destruct (decide (name = [])) as [->|Hne]; [done|].
  destruct (find _ (subjects_of a)) as [s|] eqn:E.
  - apply find_some in E as [Hin Hs%bool_decide_eq_true].
    rewrite decide_True; [by destruct name|].
    rewrite <-Hs. by apply list_elem_of_fmap_2, list_elem_of_In.
  - apply find_name_None in E. rewrite decide_False by done. by destruct name.
Qed.

(** X11.  Adding a subject registers its stripped name once: a name that is
    not blank is in the registry after the request, the subjects that
    were registered and the scores are as they were, and the same request
    again is refused and changes nothing. *)
Theorem add_subject_registers_once f a :
  let name := Py.strip (default [] (form_get f (lit "name"))) in
  let a1 := (add_subject f a).1 in
  name ≠ [] →
  name ∈ Subject.name <$> subjects_of a1
  ∧ subjects_of a `prefix_of` subjects_of a1
  ∧ (length (subjects_of a1) ≤ S (length (subjects_of a)))%nat
  ∧ scores_of a1 = scores_of a
  ∧ add_subject f a1 = (a1, Flash "error" msg_name_exists).
Proof.
  intros name a1 Hne.
  assert (name ∈ Subject.name <$> subjects_of a1
          ∧ subjects_of a `prefix_of` subjects_of a1
          ∧ (length (subjects_of a1) ≤ S (length (subjects_of a)))%nat
          ∧ scores_of a1 = scores_of a) as (Hin&?&?&?).
  { subst a1. rewrite add_subject_cases. fold name.
    rewrite decide_False by done.
    destruct (decide (name ∈ _)) as [Hin|Hn]; cbn [fst subjects_of scores_of].
    - split_and!; [done|done|lia|done].
    - unfold insert_subject. rewrite fmap_app, length_app. cbn.
      split_and!; [|by apply prefix_app_r|lia|done].
      apply elem_of_app. right. by left. }
  split_and!; [done..|].
  rewrite add_subject_cases. fold name.
  by rewrite decide_False, decide_True by done.
Qed.

Lemma filter_all {A} (P : A → Prop) `{!∀ x, Decision (P x)} (l : list A) :
  (∀ x, x ∈ l → P x) → filter P l = l.
Proof.
  intros HP. induction l as [|x l IH]; [done|].
  rewrite filter_cons_True by (apply HP; by left).
  f_equal. apply IH. intros y Hy. apply HP. by right.
Qed.

(** X12.  Deleting a subject removes it and every score of it, of every day,
    and nothing else; for an id that is not registered the answer is 404
    and nothing changes, scores under that id included.  An id that is
    not an integer SQLite has cannot be looked up: the view raises, and
    nothing changes. *)
Theorem delete_subject_removes_subject_and_scores sid a :
  let a' := (delete_subject sid a).1 in
  let r := (delete_subject sid a).2 in
  if SQLite.fits sid
  then
    subjects_of a' = filter (λ s, Subject.id s ≠ sid) (subjects_of a)
    ∧ filter (λ x, Score.subject_id x ≠ sid) (scores_of a')
      = filter (λ x, Score.subject_id x ≠ sid) (scores_of a)
    ∧ if decide (sid ∈ Subject.id <$> subjects_of a)
      then (∀ x, x ∈ scores_of a' → Score.subject_id x ≠ sid)
           ∧ ∃ s, s ∈ subjects_of a ∧ Subject.id s = sid
                  ∧ r = inr (Flash "success" (msg_deleted ++ Subject.name s))
      else a' = a ∧ r = inl NotFound
  else a' = a ∧ r = inl (Raised IntTooLarge).
Proof.
  intros a' r. subst a' r. unfold delete_subject.
  destruct (SQLite.fits sid); [|done].
  destruct (find _ (subjects_of a)) as [s|] eqn:E; cbn [fst snd subjects_of scores_of].
  - apply find_some in E as [Hin%list_elem_of_In Hs%bool_decide_eq_true].
    rewrite decide_True by (subst sid; by apply list_elem_of_fmap_2).
    unfold delete_subject_scores. split_and!; [done| | |by exists s].
    + rewrite list_filter_filter. apply list_filter_iff. tauto.
    + by intros x [? _]%list_elem_of_filter.
  - apply find_id_None in E. rewrite decide_False by done.
    split_and!; [|done..]. symmetry. apply filter_all.
    intros s Hin Hs. apply E. rewrite <-Hs. by apply list_elem_of_fmap_2.
Qed.

(** X13.  [init_db] registers the five subjects in an empty registry and
    nothing in another one; it leaves the scores; a second run changes
    nothing. *)
Theorem init_db_seeds_once a :
  scores_of (init_db a) = scores_of a
  ∧ (subjects_of a ≠ [] → init_db a = a)
  ∧ (subjects_of a = [] → Subject.name <$> subjects_of (init_db a) = initial_names)
  ∧ subjects_of (init_db a) ≠ []
  ∧ init_db (init_db a) = init_db a.
Proof.
  destruct a as [[|s l] t]; unfold init_db; cbn; split_and!; done.
Qed.

Lemma seeded_registry_ok :
  let l := foldl insert_subject [] initial_names in
  NoDup (Subject.name <$> l) ∧ NoDup (Subject.id <$> l)
  ∧ Forall (λ s, Subject.name s ≠ []) l.
Proof.
  cbn. split_and!.
  - apply (bool_decide_unpack _). vm_compute. exact I.
  - apply (bool_decide_unpack _). vm_compute. exact I.
  - repeat constructor; done.
Qed.

Lemma kept_kept s : kept (kept s) = kept s.
Proof.
  destruct s as [x|]; [|done]. cbn. unfold SQLite.real.
  destruct (is_nan x) eqn:En; [done|].
  destruct (x =? 0)%float eqn:Ez; cbn; unfold SQLite.real.
  - reflexivity.
  - by rewrite En, Ez.
Qed.

Lemma apply_edit_sqlite_rows d sid s r n w :
  SQLite.fits sid = true → (∀ m, r = Some m → SQLite.fits m = true) →
  Forall sqlite_row w → Forall sqlite_row (apply_edit d sid s r n w).
Proof.
  intros Hs Hr Hw. destruct (edit_cases s r n) as [(->&->&->)|Hne].
  - rewrite apply_edit_unset. destruct (query_first d sid w); [|done].
    rewrite Forall_forall in *. intros x [_ Hx]%list_elem_of_filter. auto.
  - rewrite apply_edit_set by done. destruct (query_first d sid w).
    + apply Forall_fmap. eapply Forall_impl; [done|].
      intros x (?&?&?). unfold compose, set_row. case_bool_decide; [|done].
      split_and!; [done..|apply kept_kept].
    + apply Forall_app. split; [done|]. apply Forall_singleton.
      split_and!; [done..|apply kept_kept].
Qed.

Lemma steps_sqlite_rows f d ids w w' :
  steps f d ids w w' → Forall sqlite_row w → Forall sqlite_row w'.
Proof.
  induction 1; [done|]. intros. by apply IHsteps, apply_edit_sqlite_rows.
Qed.

(** X14.  The invariants of the application: in every state it reaches, no two
    subjects have the same name or the same id, no name is empty, no two
    scores have the same id or the same (date, subject), and every score
    is a row of an SQLite table: its subject and its rank are 64-bit
    integers, and its score is no NaN and no negative zero.  The unique
    constraints of the schema are never violated. *)
Theorem app_invariants a :
  app_reachable a →
  NoDup (Subject.name <$> subjects_of a)
  ∧ NoDup (Subject.id <$> subjects_of a)
  ∧ Forall (λ s, Subject.name s ≠ []) (subjects_of a)
  ∧ table_ok (scores_of a)
  ∧ Forall sqlite_row (scores_of a).
Proof.
  assert (∀ a, NoDup (Subject.name <$> subjects_of a)
      ∧ NoDup (Subject.id <$> subjects_of a)
      ∧ Forall (λ s, Subject.name s ≠ []) (subjects_of a)
      ∧ table_ok (scores_of a)
      ∧ Forall sqlite_row (scores_of a) →
    NoDup (Subject.name <$> subjects_of (init_db a))
      ∧ NoDup (Subject.id <$> subjects_of (init_db a))
      ∧ Forall (λ s, Subject.name s ≠ []) (subjects_of (init_db a))
      ∧ table_ok (scores_of (init_db a))
      ∧ Forall sqlite_row (scores_of (init_db a))) as Hinit.
  { intros a0 (?&?&?&?&?). unfold init_db.
    destruct (subjects_of a0) as [|s l] eqn:E; cbn [length Nat.eqb];
      [|by rewrite E].
    cbn [subjects_of scores_of].
    destruct seeded_registry_ok as (?&?&?). done. }
  induction 1 as [|a _ IH|f a _ IH|sid a _ IH|f a _ IH].
  - apply Hinit. cbn. split_and!; try constructor; constructor.
  - by apply Hinit.
  - destruct IH as (Hn&Hi&He&Hok&Hb). rewrite add_subject_cases.
    set (name := Py.strip _).
    destruct (decide (name = [])); [done|].
    destruct (decide (name ∈ _)) as [|Hnew]; [done|].
    cbn [fst subjects_of scores_of]. unfold insert_subject.
    rewrite !fmap_app. cbn [fmap list_fmap Subject.name Subject.id].
    split_and!; [| |apply Forall_app; split; [done|by apply Forall_singleton]
                |done..].
    + apply NoDup_app. split_and!; [done| |apply NoDup_singleton].
      by intros x Hx ->%list_elem_of_singleton.
    + apply NoDup_app. split_and!; [done| |apply NoDup_singleton].
      intros i (s&->&Hs%next_subject_id_fresh)%list_elem_of_fmap
        Hi'%list_elem_of_singleton. lia.
  - destruct IH as (Hn&Hi&He&[Hpk Hkey]&Hb).
    unfold delete_subject. destruct (SQLite.fits sid); [|done].
    destruct (find _ (subjects_of a)); [|done].
    cbn [fst subjects_of scores_of]. unfold delete_subject_scores.
    split_and!; [by apply fmap_filter_NoDup..| | |].
    + rewrite Forall_forall in *. intros x [_ Hx]%list_elem_of_filter. auto.
    + split; by apply fmap_filter_NoDup.
    + rewrite Forall_forall in *. intros x [_ Hx]%list_elem_of_filter. auto.
  - destruct IH as (Hn&Hi&He&Hok&Hb). unfold app_save_scores.
    pose proof (serve_save_scores_table f (scores_of a)) as Ht.
    destruct (serve (save_scores f) (scores_of a)) as [t r].
    cbn [fst subjects_of scores_of] in *.
    destruct Ht as [->|[d S]]; [done|].
    split_and!; [done..|by eapply steps_ok|by eapply steps_sqlite_rows].
Qed.

(** ** The pages of the report *)

Lemma cursor_checked :
  forallb (λ j, negb (cursor j <? 20 * mm)%float) (seq 0 rows_per_page)
  && (cursor rows_per_page <? 20 * mm)%float = true.
Proof. vm_compute. reflexivity. Qed.

Lemma cursor_above j :
  (j < rows_per_page)%nat → (cursor j <? 20 * mm)%float = false.
Proof.
  intros Hj. pose proof cursor_checked as [Hc _]%andb_true_iff.
  rewrite forallb_forall in Hc. apply negb_true_iff, Hc.
  apply list_elem_of_In, elem_of_seq. lia.
Qed.

Lemma cursor_below : (cursor rows_per_page <? 20 * mm)%float = true.
Proof. by pose proof cursor_checked as [_ Hc]%andb_true_iff. Qed.

Lemma draw_subject_one_line title m c y subj :
  one_line m subj →
  draw_subject title m (c, y) subj
  = let '(c1, y1) :=
      if (y <? 20 * mm)%float
      then (Canvas (pages c ++ [code c]) (header_ops (title ++ continued)),
            header_y)
      else (c, y) in
    (Canvas (pages c1) (code c1 ++ row_ops m y1 subj), (y1 - line_h)%float).
Proof.
  intros Hl. rewrite draw_subject_eq. unfold note_lines.
  rewrite (proj2 (Nat.ltb_ge _ _) Hl). by destruct (y <? 20 * mm)%float.
Qed.

Lemma page_ops_snoc title m i g subj :
  page_ops title m i (g ++ [subj])
  = page_ops title m i g ++ row_ops m (cursor (length g)) subj.
Proof.
  unfold page_ops. rewrite imap_app, concat_app, <-app_assoc. cbn.
  by rewrite Nat.add_0_r, app_nil_r.
Qed.

Lemma render_loop_one_line title m rows : ∀ c c' y' gs g,
  Forall (one_line m) rows →
  (length g ≤ rows_per_page)%nat →
  Forall (λ g, length g = rows_per_page) gs →
  all_pages c = imap (page_ops title m) (gs ++ [g]) →
  foldl (draw_subject title m) (c, cursor (length g)) rows = (c', y') →
  ∃ gs' g',
    concat (gs' ++ [g']) = concat (gs ++ [g]) ++ rows
    ∧ all_pages c' = imap (page_ops title m) (gs' ++ [g'])
    ∧ Forall (λ g, length g = rows_per_page) gs'
    ∧ (length g' ≤ rows_per_page)%nat
    ∧ (g ≠ [] ∨ rows ≠ [] → g' ≠ []).
Proof.
  induction rows as [|subj rows IH]; intros c c' y' gs g Hrows Hg Hgs Hc E.
  - inversion E; subst. exists gs, g. rewrite app_nil_r.
    split_and!; [done..|]. by intros [?|?].
  - apply Forall_cons in Hrows as [Hsubj Hrows].
    cbn [foldl] in E. rewrite draw_subject_one_line in E by done.
    unfold all_pages in Hc. rewrite imap_app in Hc.
    apply app_inj_2 in Hc as [Hp Hl]; [|done].
    cbn [imap] in Hl. rewrite Nat.add_0_r in Hl. injection Hl as Hl.
    destruct (decide (length g = rows_per_page)) as [Hfull|Hroom].
    + rewrite Hfull, cursor_below in E.
      eapply (IH _ _ _ (gs ++ [g]) [subj]) in E
        as (gs'&g'&Hcat&Hd&Hgs'&Hg'&Hne); [|done|..].
      * exists gs', g'. split_and!; [|done..|auto].
        rewrite Hcat, !concat_app. cbn. by rewrite !app_nil_r, <-!app_assoc.
      * cbn. unfold rows_per_page. lia.
      * apply Forall_app. split; [done|]. by apply Forall_singleton.
      * unfold all_pages. cbn [pages code].
        rewrite imap_app, imap_app, Hp, Hl. cbn [imap].
        rewrite !Nat.add_0_r, length_app, Nat.add_1_r.
        unfold page_ops. cbn. by rewrite app_nil_r.
    + rewrite cursor_above in E by lia.
      change (cursor (length g) - line_h)%float
        with (cursor (S (length g))) in E.
      replace (S (length g)) with (length (g ++ [subj])) in E
        by (rewrite length_app; cbn; lia).
      eapply (IH _ _ _ gs (g ++ [subj])) in E
        as (gs'&g'&Hcat&Hd&Hgs'&Hg'&Hne); [|done|..].
      * exists gs', g'. split_and!; [|done..|].
        -- rewrite Hcat, !concat_app. cbn. by rewrite !app_nil_r, <-!app_assoc.
        -- intros _. apply Hne. left. by destruct g.
      * rewrite length_app. cbn. lia.
      * done.
      * unfold all_pages. cbn [pages code].
        rewrite imap_app, Hp. cbn [imap].
        by rewrite Nat.add_0_r, page_ops_snoc, Hl.
Qed.

Lemma length_concat_full {A} (gs : list (list A)) n :
  Forall (λ g, length g = n) gs → length (concat gs) = (n * length gs)%nat.
Proof.
  induction 1 as [|g gs Hg _ IH]; [cbn; lia|].
  cbn. rewrite length_app, IH, Hg. lia.
Qed.

(** X15.  When every note fits one line, a page holds [rows_per_page] = 30
    rows: the pages are the rows in groups of 30, the last one of 1 to 30
    (or none, if there is no row); the row of index [k] on a page is drawn
    [k] times [line_h] under the header, and the number of pages is
    [(n + 29) / 30], and 1 when there is no row. *)
Theorem report_of_one_line_rows title m rows :
  Forall (one_line m) rows →
  ∃ gs g,
    rows = concat gs ++ g
    ∧ Forall (λ g, length g = rows_per_page) gs
    ∧ (length g ≤ rows_per_page)%nat
    ∧ (rows ≠ [] → g ≠ [])
    ∧ render title m rows = imap (page_ops title m) (gs ++ [g])
    ∧ length (render title m rows)
      = Nat.max 1 ((length rows + 29) / 30).
Proof.
  intros Hrows. unfold render. rewrite draw_header_eq. cbn [pages code app].
  destruct (foldl _ _ rows) as [c' y'] eqn:E.
  change header_y with (cursor (length (@nil Subject.t))) in E.
  eapply (render_loop_one_line _ _ _ _ _ _ [] []) in E
    as (gs&g&Hcat&Hd&Hgs&Hg&Hne); [|done|cbn; lia|done|done].
  assert (save (showPage c') = all_pages c') as -> by done.
  rewrite concat_app in Hcat. cbn in Hcat. rewrite app_nil_r in Hcat.
  exists gs, g. split_and!; [done|done|done|auto|done|].
  rewrite Hd, length_imap, length_app, <-Hcat, length_app,
    (length_concat_full gs rows_per_page) by done.
  cbn [length]. unfold rows_per_page in *.
  destruct (decide (rows = [])) as [->|Hr].
  - apply app_eq_nil in Hcat as [Hgs0 ->].
    destruct gs as [|g0 gs]; [done|].
    apply Forall_cons in Hgs as [Hg0 _]. by destruct g0.
  - assert (length g ≠ 0)%nat by (specialize (Hne (or_intror Hr)); by destruct g).
    assert ((30 * length gs + length g + 29) / 30 = length gs + 1)%nat as ->; [|lia].
    symmetry. apply Nat.div_unique with (r := (length g - 1)%nat); lia.
Qed.

Lemma header_y_above : (header_y <? 20 * mm)%float = false.
Proof. vm_compute. reflexivity. Qed.

Lemma render_loop_nonempty title m rows : ∀ c y c' y' gs g,
  drawn <$> all_pages c
    = imap (λ i g, page_texts (page_title title i) m g) (gs ++ [g]) →
  Forall (λ g, g ≠ []) gs →
  g ≠ [] ∨ y = header_y →
  foldl (draw_subject title m) (c, y) rows = (c', y') →
  ∃ gs' g',
    concat (gs' ++ [g']) = concat (gs ++ [g]) ++ rows
    ∧ drawn <$> all_pages c'
      = imap (λ i g, page_texts (page_title title i) m g) (gs' ++ [g'])
    ∧ Forall (λ g, g ≠ []) gs'
    ∧ (g ≠ [] ∨ rows ≠ [] → g' ≠ []).
Proof.
  induction rows as [|subj rows IH]; intros c y c' y' gs g Hc Hgs Hg E.
  - inversion E; subst. exists gs, g. rewrite app_nil_r.
    split_and!; [done..|]. by intros [?|?].
  - cbn [foldl] in E. rewrite draw_subject_eq in E.
    unfold all_pages in Hc. rewrite fmap_app, imap_app in Hc.
    apply app_inj_2 in Hc as [Hp Hl]; [|done].
    cbn [fmap list_fmap imap] in Hl. rewrite Nat.add_0_r in Hl.
    injection Hl as Hl.
    destruct (y <? 20 * mm)%float eqn:Ey.
    + assert (g ≠ []) as Hne.
      { destruct Hg as [?|Hy]; [done|]. subst y. by rewrite header_y_above in Ey. }
      eapply (IH _ _ _ _ (gs ++ [g]) [subj]) in E
        as (gs'&g'&Hcat&Hd&Hgs'&Hg');
        [| |apply Forall_app; split; [done|by apply Forall_singleton]|by left].
      * exists gs', g'. split_and!; [|done..|auto].
        rewrite Hcat, !concat_app. cbn. by rewrite !app_nil_r, <-!app_assoc.
      * unfold all_pages. cbn [pages code].
        rewrite !fmap_app, !imap_app, Hp. cbn [fmap list_fmap imap].
        rewrite Hl, !Nat.add_0_r, length_app, Nat.add_1_r.
        rewrite drawn_app, drawn_row_ops, drawn_header_ops.
        unfold page_texts. cbn. by rewrite app_nil_r.
    + eapply (IH _ _ _ _ gs (g ++ [subj])) in E
        as (gs'&g'&Hcat&Hd&Hgs'&Hg'); [| |done|left; by destruct g].
      * exists gs', g'. split_and!; [|done..|].
        -- rewrite Hcat, !concat_app. cbn. by rewrite !app_nil_r, <-!app_assoc.
        -- intros _. apply Hg'. left. by destruct g.
      * unfold all_pages. cbn [pages code].
        rewrite !fmap_app, !imap_app, Hp. cbn [fmap list_fmap imap].
        rewrite !Nat.add_0_r, drawn_app, drawn_row_ops, Hl.
        by rewrite page_texts_snoc.
Qed.

Lemma length_concat_nonempty {A} (gs : list (list A)) :
  Forall (λ g, g ≠ []) gs → (length gs ≤ length (concat gs))%nat.
Proof.
  induction 1 as [|g gs Hg _ IH]; [done|].
  cbn. rewrite length_app. destruct g; [done|]. cbn. lia.
Qed.

(** X16.  No page of the report is without a row, unless there is no row at
    all: with no subject the report is one page with the title and the
    header; otherwise every page, the last one too, draws at least one
    row, so that there are at most as many pages as rows. *)
Theorem report_has_no_page_without_rows title m rows :
  render title m [] = [header_ops title]
  ∧ (rows ≠ [] →
     ∃ groups,
       concat groups = rows
       ∧ Forall (λ g, g ≠ []) groups
       ∧ drawn <$> render title m rows
         = imap (λ i g, header_texts (page_title title i)
                        ++ (g ≫= row_texts m)) groups
       ∧ (1 ≤ length (render title m rows) ≤ length rows)%nat).
Proof.
  split; [reflexivity|]. intros Hr.
  unfold render. rewrite draw_header_eq. cbn [pages code app].
  destruct (foldl _ _ rows) as [c' y'] eqn:E.
  eapply (render_loop_nonempty _ _ _ _ _ _ _ [] []) in E
    as (gs&g&Hcat&Hd&Hgs&Hg); [|done|done|by right].
  assert (save (showPage c') = all_pages c') as -> by done.
  assert (Forall (λ g, g ≠ []) (gs ++ [g])) as Hall.
  { apply Forall_app. split; [done|]. apply Forall_singleton. auto. }
  exists (gs ++ [g]). split_and!; [done..| |].
  - rewrite <-(length_fmap drawn), Hd, length_imap, length_app. cbn. lia.
  - rewrite <-(length_fmap drawn), Hd, length_imap.
    change (concat ([] ++ [[]]) ++ rows) with rows in Hcat. rewrite <-Hcat.
    by apply length_concat_nonempty.
Qed.

End more_ledger.

(** * The rest of the application on concrete requests *)

Import MoreExamples.

Lemma save_scores_returns_iff_all_convert_witness :
  ∃ e,
    serve (save_scores (rank_of "9223372036854775808")) before = (before, inl e)
    ∧ match e with
      | ValueError what s => rejected what s
      | IntTooLarge =>
          ∃ n, binds (rank_of "9223372036854775808") n ∧ SQLite.fits n = false
      end.
Proof.
  apply (save_scores_returns_iff_all_convert
           (rank_of "9223372036854775808") before).
  intros [_ Hall]. rewrite Forall_forall in Hall.
  destruct (Hall (lit "1")) as (sid&sc&rk&Hs&_&Hr&_&Hfit).
  - vm_compute. repeat constructor.
  - vm_compute in Hs. injection Hs as <-. vm_compute in Hr.
    injection Hr as <-. specialize (Hfit _ eq_refl). discriminate Hfit.
Defined.

(** The request of the witness raises the [OverflowError]; with a rank
    string that [int] refuses, it raises the [ValueError]. *)
Example save_scores_raises :
  serve (save_scores (rank_of "9223372036854775808")) before
  = (before, inl IntTooLarge)
  ∧ serve (save_scores one_bad_rank) before
    = (before, inl (ValueError to_int (lit "first"))).
Proof. split; vm_compute; reflexivity. Qed.

Lemma two_days_ok : table_ok two_days.
Proof. split; apply (bool_decide_unpack _); vm_compute; exact I. Defined.

Lemma save_scores_keeps_other_days_witness :
  filter (λ r, Score.the_date r ≠ jan10)
    (serve (save_scores two_subjects) two_days).1
  = filter (λ r, Score.the_date r ≠ jan10) two_days.
Proof.
  apply (save_scores_keeps_other_days two_subjects two_days jan10).
  - exact two_days_ok.
  - vm_compute. reflexivity.
Defined.

Lemma save_scores_updates_in_place_witness :
  ∃ row', query_first jan10 1 after = Some row'
          ∧ Score.id row' = 1
          ∧ key_of row' = (jan10, 1).
Proof.
  apply (save_scores_updates_in_place two_subjects before after jan10 (lit "1") 1
           (Score.mk 1 jan10 1 (Some 70%float) (Some 5) (Some (lit "old")))).
  - exact before_ok.
  - vm_compute. reflexivity.
  - vm_compute. repeat constructor.
  - vm_compute. reflexivity.
  - vm_compute. reflexivity.
  - intros sc rk E1 E2. vm_compute in E1. injection E1 as <-. discriminate.
Defined.

Lemma save_scores_duplicate_id_witness :
  serve (save_scores (two_subjects ++ [(lit "score_subject_ids", lit "01")]))
    before
  = serve (save_scores two_subjects) before.
Proof.
  apply (save_scores_duplicate_id two_subjects before (lit "01") (lit "1")).
  - exact before_ok.
  - vm_compute. repeat constructor.
  - vm_compute. reflexivity.
Defined.

Lemma scores_map_is_the_row_of_the_day_witness :
  scores_map_of (scores_on jan10 before) !! 1 = query_first jan10 1 before.
Proof. apply (scores_map_is_the_row_of_the_day jan10 1 before before_ok). Defined.

Lemma saved_scores_are_shown_witness :
  ∃ ctx,
    scores_view (Some (lit "2024-01-10")) (App subjects noted) = inr ctx
    ∧ match v_scores_map ctx !! 1 with
      | Some row =>
          (Some 91.5%float, Some 3, Some (lit "good work"))
          ≠ (None, None, None)
          ∧ Score.score row = Some 91.5%float ∧ Score.rank row = Some 3
          ∧ Score.note row = Some (lit "good work")
      | None => Some 91.5%float = None ∧ Some 3 = None
                ∧ Some (lit "good work") = None
      end.
Proof.
  eexists. split; [vm_compute; reflexivity|].
  apply (saved_scores_are_shown with_note before noted jan10 (lit "1") 1
           (Some 91.5%float) (Some 3) (Some (lit "2024-01-10")) subjects).
  - exact before_ok.
  - vm_compute. reflexivity.
  - vm_compute. repeat constructor.
  - vm_compute. reflexivity.
  - split; [by eexists|vm_compute; reflexivity].
  - split; [by eexists|vm_compute; reflexivity].
  - vm_compute. reflexivity.
  - vm_compute. reflexivity.
Defined.

(** A NaN is saved as no score, and shown and printed as none; negative
    zero is printed as zero. *)
Example nan_is_not_shown :
  scores_map_of (scores_on jan10 (serve (save_scores (score_and_rank "nan")) []).1)
    !! 1
  = Some (Score.mk 1 jan10 1 None (Some 2) None)
  ∧ row_texts
      (scores_map_of
         (scores_on jan10 (serve (save_scores (score_and_rank "-0")) []).1))
      (Subject.mk 1 (lit "math"))
    = [(col_subject, lit "math"); (col_score, lit "0.0"); (col_rank, lit "2");
       (col_note, [])].
Proof. split; vm_compute; reflexivity. Qed.

Lemma saved_scores_are_printed_witness :
  let m := scores_map_of (scores_on jan10 noted) in
  (∃ groups,
     concat groups = subjects_by_name subjects
     ∧ drawn <$> report jan10 subjects noted
       = imap (λ i g, header_texts
                        (page_title (title_prefix ++ strftime_ymd jan10) i)
                      ++ (g ≫= row_texts m)) groups)
  ∧ ∀ subj, Subject.id subj = 1 →
      row_texts m subj
      = [(col_subject, Subject.name subj); (col_score, lit "91.5");
         (col_rank, lit "3"); (col_note, lit "good work")].
Proof.
  assert (serve (save_scores with_note) before = (noted, inr jan10)) as E
    by (vm_compute; reflexivity).
  assert (lit "1" ∈ submitted_ids with_note) as Hin
    by (vm_compute; repeat constructor).
  assert (py_int (lit "1") = Some 1) as Hs by (vm_compute; reflexivity).
  destruct (saved_scores_are_printed with_note before noted jan10 (lit "1") 1
              (Some 91.5%float) (Some 3) subjects before_ok E Hin Hs)
    as [Hpages Hrow].
  - split; [by eexists|vm_compute; reflexivity].
  - split; [by eexists|vm_compute; reflexivity].
  - split; [exact Hpages|]. intros subj Hid.
    rewrite (Hrow subj Hid). vm_compute. reflexivity.
Defined.



Lemma scores_view_context_of_the_month_witness :
  ∃ w,
    WEEKDAY_ZH !! Z.to_nat (Calendar.weekday (Date 2024 1 31)) = Some w
    ∧ scores_view (Some (lit "2024-01-31")) start
      = inr (Context (Date 2024 1 31) w (subjects_by_name (subjects_of start))
               (scores_map_of (scores_on (Date 2024 1 31) (scores_of start)))
               (Date 2024 1 1) (Date 2023 12 1) (Date 2024 2 1)).
Proof.
  apply (scores_view_context_of_the_month (Some (lit "2024-01-31")) start
           (Date 2024 1 31)).
  - vm_compute. reflexivity.
  - vm_compute. reflexivity.
  - vm_compute. reflexivity.
Defined.

Lemma scores_view_overflows_at_calendar_ends_witness :
  scores_view (Some (lit "9999-12-15")) start = inl OverflowError
  ∧ scores_view (Some (lit "0001-01-15")) start = inl OverflowError.
Proof.
  split.
  - apply (scores_view_overflows_at_calendar_ends _ _ (Date 9999 12 15));
      vm_compute; reflexivity.
  - apply (scores_view_overflows_at_calendar_ends _ _ (Date 1 1 15));
      vm_compute; reflexivity.
Defined.

Lemma add_subject_refuses_blank_name_witness :
  add_subject (name_form "   ") start = (start, Flash "error" msg_name_empty).
Proof.
  apply (add_subject_refuses_blank_name (name_form "   ") start).
  intros v [= <-]. repeat constructor.
Defined.

Lemma add_subject_registers_once_witness :
  let a1 := (add_subject (name_form "  art ") start).1 in
  lit "art" ∈ Subject.name <$> subjects_of a1
  ∧ subjects_of start `prefix_of` subjects_of a1
  ∧ (length (subjects_of a1) ≤ S (length (subjects_of start)))%nat
  ∧ scores_of a1 = scores_of start
  ∧ add_subject (name_form "  art ") a1 = (a1, Flash "error" msg_name_exists).
Proof.
  apply (add_subject_registers_once (name_form "  art ") start).
  vm_compute. discriminate.
Defined.

Lemma delete_subject_removes_subject_and_scores_witness :
  let a' := (delete_subject 3 with_scores).1 in
  let r := (delete_subject 3 with_scores).2 in
  subjects_of a' = filter (λ s, Subject.id s ≠ 3) (subjects_of with_scores)
  ∧ filter (λ x, Score.subject_id x ≠ 3) (scores_of a')
    = filter (λ x, Score.subject_id x ≠ 3) (scores_of with_scores)
  ∧ if decide (3 ∈ Subject.id <$> subjects_of with_scores)
    then (∀ x, x ∈ scores_of a' → Score.subject_id x ≠ 3)
         ∧ ∃ s, s ∈ subjects_of with_scores ∧ Subject.id s = 3
                ∧ r = inr (Flash "success" (msg_deleted ++ Subject.name s))
    else a' = with_scores ∧ r = inl NotFound.
Proof. apply (delete_subject_removes_subject_and_scores 3 with_scores). Defined.

(** Deleting subject 3 deletes its scores of both days; subject 9 is not
    registered, and [2 ^ 63] cannot be looked up. *)
Example delete_subject_3 :
  scores_of (delete_subject 3 with_scores).1
  = [Score.mk 2 (Date 2024 1 10) 1 None (Some 4) None]
  ∧ delete_subject 9 with_scores = (with_scores, inl NotFound)
  ∧ delete_subject (2 ^ 63) with_scores
    = (with_scores, inl (Raised IntTooLarge)).
Proof. split_and!; vm_compute; reflexivity. Qed.

Lemma init_db_seeds_once_witness :
  scores_of (init_db (App [] [])) = []
  ∧ Subject.name <$> subjects_of (init_db (App [] [])) = initial_names
  ∧ init_db (init_db (App [] [])) = init_db (App [] []).
Proof.
  destruct (init_db_seeds_once (App [] [])) as (Hs&_&Hn&_&Hi).
  split_and!; [exact Hs|apply Hn; reflexivity|exact Hi].
Defined.

Lemma app_invariants_witness :
  NoDup (Subject.name <$> subjects_of start)
  ∧ NoDup (Subject.id <$> subjects_of start)
  ∧ Forall (λ s, Subject.name s ≠ []) (subjects_of start)
  ∧ table_ok (scores_of start)
  ∧ Forall sqlite_row (scores_of start).
Proof. apply (app_invariants start). apply app_start. Defined.

Lemma many_one_line : Forall (one_line ∅) many_subjects.
Proof.
  apply Forall_forall. intros subj _. unfold one_line.
  rewrite lookup_empty. cbn. unfold max_chars. lia.
Defined.

Lemma report_of_one_line_rows_witness :
  ∃ gs g,
    many_subjects = concat gs ++ g
    ∧ Forall (λ g, length g = rows_per_page) gs
    ∧ (length g ≤ rows_per_page)%nat
    ∧ (many_subjects ≠ [] → g ≠ [])
    ∧ render (lit "t") ∅ many_subjects = imap (page_ops (lit "t") ∅) (gs ++ [g])
    ∧ length (render (lit "t") ∅ many_subjects)
      = Nat.max 1 ((length many_subjects + 29) / 30).
Proof.
  apply (report_of_one_line_rows (lit "t") ∅ many_subjects many_one_line).
Defined.

(** Thirty-one subjects take two pages: thirty rows and one. *)
Example report_of_31_subjects :
  length <$> (drawn <$> render (lit "t") ∅ many_subjects)
  = [5 + 30 * 4; 5 + 4]%nat.
Proof. vm_compute. reflexivity. Qed.

Lemma report_has_no_page_without_rows_witness :
  ∃ groups,
    concat groups = subjects
    ∧ Forall (λ g, g ≠ []) groups
    ∧ drawn <$> render (lit "t") ∅ subjects
      = imap (λ i g, header_texts (page_title (lit "t") i)
                     ++ (g ≫= row_texts ∅)) groups
    ∧ (1 ≤ length (render (lit "t") ∅ subjects) ≤ length subjects)%nat.
Proof.
  apply (report_has_no_page_without_rows (lit "t") ∅ subjects).
  discriminate.
Defined.
